(** * AtomDesignSystem: token normaliser and module compiler

    A shallow embedding of the build scripts of the repository:

    - the token normaliser in its DTCG version, the one that resolves
      [$type] and converts composite values (value conversion, token
      flattening and reference resolution: [extractValue], [dimensionToCss],
      [cubicBezierToCss], [singleShadowToCss], [shadowToCss], [valueToCss],
      [flattenTokens], [resolveReferences]);
    - the module compiler (the loop over the module manifest and the
      combined token file);
    - the flattening of the first token normaliser, [tokens-to-scss.js];
    - the change handler of the watcher.

    JavaScript values are the values [JSON.parse] can produce.  A thrown
    exception is an explicit result, so that every function of the model is
    total and can be evaluated. *)

From Stdlib Require Import Ascii.
From stdpp Require Import base strings pretty list gmap.


(** ** JavaScript numbers

    The scripts never compute with numbers: a number read from a token file
    is only converted to a string ([String(n)], a template literal,
    [Array.prototype.join], [JSON.stringify]) or tested for truthiness.  The
    embedding is therefore parametric in the representation of numbers and in
    these operations. *)

Class JsNumber := {
  num : Type;
  (** [String(n)] *)
  num_to_string : num -> string;
  (** [false] for [0] and [-0] *)
  num_truthy : num -> bool;
  (** [false] for the infinities, which [JSON.parse] gives for a literal
      beyond the range of the numbers *)
  num_finite : num -> bool
}.

(** Integers that JavaScript prints without an exponent are one instance; it
    is the one the concrete examples of this file are evaluated with. *)
#[export] Instance IntNumber : JsNumber := {|
  num := Z;
  num_to_string := pretty;
  num_truthy := fun z => negb (Z.eqb z 0);
  num_finite := fun _ => true
|}.

(** ** Exceptions *)

Inductive exn : Type :=
  | TypeError
  (** an error of a file-system call ([ENOENT], [EISDIR], [EEXIST], ...) *)
  | SystemError.

Inductive res (A : Type) : Type :=
  | Ok (a : A)
  | Throw (e : exn).

Arguments Ok {A} a.
Arguments Throw {A} e.

#[export] Instance res_ret : MRet res := fun _ a => Ok a.
#[export] Instance res_bind : MBind res := fun _ _ f r =>
  match r with
  | Ok a => f a
  | Throw e => Throw e
  end.

(** ** JSON values *)

Section Values.

Context `{JsNumber}.

#[local] Unset Elimination Schemes.

(** An object is the list of its own enumerable properties in the order in
    which [Object.entries] enumerates them.  A string is the sequence of the
    bytes of its UTF-8 encoding; every character the scripts test for ([$],
    [{], [}], [.]) is a single byte that occurs in no multi-byte sequence. *)
Inductive json : Type :=
  | JNull
  | JBool (b : bool)
  | JNum (n : num)
  | JStr (s : string)
  | JArr (l : list json)
  | JObj (l : list (string * json)).

#[local] Set Elimination Schemes.

(** Induction over JSON values that reaches the elements of arrays and the
    properties of objects. *)
Section json_induction.

Variable P : json -> Prop.
Hypothesis Hnull : P JNull.
Hypothesis Hbool : forall b, P (JBool b).
Hypothesis Hnum : forall n, P (JNum n).
Hypothesis Hstr : forall s, P (JStr s).
Hypothesis Harr : forall l, Forall P l -> P (JArr l).
Hypothesis Hobj : forall l, Forall (fun kv => P (snd kv)) l -> P (JObj l).

Fixpoint json_ind (v : json) : P v :=
  match v with
  | JNull => Hnull
  | JBool b => Hbool b
  | JNum n => Hnum n
  | JStr s => Hstr s
  | JArr l =>
      Harr l
        ((fix elems (l : list json) : Forall P l :=
            match l with
            | [] => List.Forall_nil P
            | x :: l' => List.Forall_cons P x l' (json_ind x) (elems l')
            end) l)
  | JObj l =>
      Hobj l
        ((fix props (l : list (string * json))
            : Forall (fun kv => P (snd kv)) l :=
            match l with
            | [] => List.Forall_nil _
            | (k, x) :: l' =>
                List.Forall_cons (fun kv => P (snd kv)) (k, x) l'
                  (json_ind x) (props l')
            end) l)
  end.

End json_induction.

(** The result of a property access or an omitted argument: [None] is
    [undefined]. *)
Definition jsval : Type := option json.

(** ToBoolean. *)
Definition truthy (v : json) : bool :=
  match v with
  | JNull => false
  | JBool b => b
  | JNum n => num_truthy n
  | JStr s => negb (String.eqb s EmptyString)
  | JArr _ | JObj _ => true
  end.

Definition truthy_opt (v : jsval) : bool :=
  match v with
  | Some x => truthy x
  | None => false
  end.

(** The first binding of a key in a property list. *)
Fixpoint assoc (k : string) (l : list (string * json)) : jsval :=
  match l with
  | [] => None
  | (k', v) :: l' => if String.eqb k k' then Some v else assoc k l'
  end.

(** [v.k] for one of the property names the scripts read ([$value],
    [value], [$type], [unit], [offsetX], [offsetY], [blur], [spread],
    [color]): none of them is defined on the prototype of an array, a string,
    a number or a boolean, and reading a property of [null] throws. *)
Definition get (v : json) (k : string) : res jsval :=
  match v with
  | JNull => Throw TypeError
  | JObj l => Ok (assoc k l)
  | _ => Ok None
  end.

(** [v.k] where [v] is known not to be [null]. *)
Definition prop (v : json) (k : string) : jsval :=
  match v with
  | JObj l => assoc k l
  | _ => None
  end.

(** The strings of the elements of a list, from the first on, up to the
    first exception. *)
Fixpoint strings {A : Type} (f : A -> res string) (l : list A)
  : res (list string) :=
  match l with
  | [] => Ok []
  | x :: l' =>
      s ← f x;
      rest ← strings f l';
      Ok (s :: rest)
  end.

(** ToString on a JSON value, as [String(v)], a template literal and [join]
    apply it.  [Array.prototype.toString] is [join(",")].  An object is
    converted by the [toString] of [Object.prototype] unless it has a
    property [toString] itself: a value read from JSON is not callable, the
    [valueOf] that is tried next returns the object, and the conversion
    throws. *)
Fixpoint to_string (v : json) : res string :=
  match v with
  | JNull => Ok "null"
  | JBool b => Ok (if b then "true" else "false")
  | JNum n => Ok (num_to_string n)
  | JStr s => Ok s
  | JArr l =>
      elements ←
        strings (fun x => match x with
                          | JNull => Ok EmptyString
                          | _ => to_string x
                          end) l;
      Ok (String.concat "," elements)
  | JObj l =>
      match assoc "toString" l with
      | Some _ => Throw TypeError
      | None => Ok "[object Object]"
      end
  end.

Definition to_string_opt (v : jsval) : res string :=
  match v with
  | Some x => to_string x
  | None => Ok "undefined"
  end.

(** [arr.join(sep)]: [null] elements are joined as empty strings. *)
Definition join (sep : string) (l : list json) : res string :=
  elements ←
    strings (fun x => match x with
                      | JNull => Ok EmptyString
                      | _ => to_string x
                      end) l;
  Ok (String.concat sep elements).

(** *** JSON.stringify *)

Definition hex_digit (n : N) : ascii :=
  match n with
  | 0 => "0" | 1 => "1" | 2 => "2" | 3 => "3" | 4 => "4" | 5 => "5"
  | 6 => "6" | 7 => "7" | 8 => "8" | 9 => "9" | 10 => "a" | 11 => "b"
  | 12 => "c" | 13 => "d" | 14 => "e" | _ => "f"
  end%N%char.

Definition dquote : ascii := ascii_of_N 34.

Definition quote_char (c : ascii) : string :=
  let n := N_of_ascii c in
  if N.eqb n 34 then String "\"%char (String dquote EmptyString)
  else if N.eqb n 92 then "\\"
  else if N.eqb n 8 then "\b"
  else if N.eqb n 9 then "\t"
  else if N.eqb n 10 then "\n"
  else if N.eqb n 12 then "\f"
  else if N.eqb n 13 then "\r"
  else if N.ltb n 32 then
    "\u00" +:+
    String (hex_digit (N.div n 16))
      (String (hex_digit (N.modulo n 16)) EmptyString)
  else String c EmptyString.

Fixpoint quote_body (s : string) : string :=
  match s with
  | EmptyString => EmptyString
  | String c s' => quote_char c +:+ quote_body s'
  end.

Definition quote (s : string) : string :=
  String dquote (quote_body s +:+ String dquote EmptyString).

Fixpoint stringify (v : json) : string :=
  match v with
  | JNull => "null"
  | JBool b => if b then "true" else "false"
  | JNum n => if num_finite n then num_to_string n else "null"
  | JStr s => quote s
  | JArr l => "[" +:+ String.concat "," (map stringify l) +:+ "]"
  | JObj l =>
      "{" +:+
      String.concat ","
        (map (fun kv => match kv with
                        | (k, x) => quote k +:+ ":" +:+ stringify x
                        end) l)
      +:+ "}"
  end.

(** ** Value conversion *)

(** The [typeof] operator. *)
Definition typeof (v : json) : string :=
  match v with
  | JNull | JArr _ | JObj _ => "object"
  | JBool _ => "boolean"
  | JNum _ => "number"
  | JStr _ => "string"
  end.

Definition is_null (v : json) : bool :=
  match v with
  | JNull => true
  | _ => false
  end.

(** [v === s] for a string literal [s]. *)
Definition is_string (v : json) (s : string) : bool :=
  match v with
  | JStr s' => String.eqb s' s
  | _ => false
  end.

(** [x !== undefined] *)
Definition defined (x : jsval) : bool :=
  match x with
  | Some _ => true
  | None => false
  end.

(** Extract the token value (DTCG [$value] or legacy [value]). *)
Definition extractValue (token : json) : res json :=
  dtcg ← get token "$value";
  match dtcg with
  | Some v => Ok v
  | None =>
      legacy ← get token "value";
      match legacy with
      | Some v => Ok v
      | None => Ok JNull
      end
  end.

(** Convert a dimension object to a CSS string.  The argument is the result
    of a property access and may be [undefined]. *)
Definition dimensionToCss (dim : jsval) : res string :=
  match dim with
  | None => Ok "undefined"
  | Some d =>
      if String.eqb (typeof d) "string" then to_string d
      else if truthy d && String.eqb (typeof d) "object"
              && defined (prop d "value") && truthy_opt (prop d "unit")
      then
        value ← to_string_opt (prop d "value");
        unit ← to_string_opt (prop d "unit");
        Ok (value +:+ unit)
      else to_string d
  end.

(** Convert a cubicBezier array to CSS. *)
Definition cubicBezierToCss (arr : json) : res string :=
  match arr with
  | JArr l =>
      if Nat.eqb (length l) 4 then
        joined ← join ", " l;
        Ok ("cubic-bezier(" +:+ joined +:+ ")")
      else to_string arr
  | _ => to_string arr
  end.

(** Convert a single shadow object to CSS. *)
Definition singleShadowToCss (s : json) : res string :=
  offsetX ← get s "offsetX";
  ox ← dimensionToCss offsetX;
  offsetY ← get s "offsetY";
  oy ← dimensionToCss offsetY;
  blur ← get s "blur";
  bl ← dimensionToCss blur;
  spread ← get s "spread";
  sp ← dimensionToCss spread;
  color ← get s "color";
  color' ← to_string_opt color;
  Ok (ox +:+ " " +:+ oy +:+ " " +:+ bl +:+ " " +:+ sp +:+ " " +:+ color').

(** Convert a shadow value (single or array) to CSS. *)
Definition shadowToCss (val : json) : res string :=
  match val with
  | JArr l =>
      shadows ← mapM singleShadowToCss l;
      Ok (String.concat ", " shadows)
  | _ => singleShadowToCss val
  end.

(** Convert any DTCG token value to a CSS string based on the resolved type.
    The result [None] is [null].  The only caller passes a value that is not
    [undefined]. *)
Definition valueToCss (val : json) (type : json) : res (option string) :=
  match val with
  | JNull => Ok None
  | JStr s => Ok (Some s)
  | JNum n => css ← to_string val; Ok (Some css)
  | JArr _ =>
      if is_string type "cubicBezier" then
        css ← cubicBezierToCss val; Ok (Some css)
      else if is_string type "shadow" then
        css ← shadowToCss val; Ok (Some css)
      else css ← to_string val; Ok (Some css)
  | JObj _ =>
      if defined (prop val "value") && defined (prop val "unit")
      then css ← dimensionToCss (Some val); Ok (Some css)
      else if defined (prop val "offsetX")
      then css ← singleShadowToCss val; Ok (Some css)
      else Ok (Some (stringify val))
  | JBool _ => css ← to_string val; Ok (Some css)
  end.

(** ** Token flattening *)

(** [key.startsWith('$')] *)
Definition is_metadata (key : string) : bool :=
  match key with
  | String c _ => Ascii.eqb c "$"
  | EmptyString => false
  end.

(** [result[key] = css] on an object created by an object literal: the
    assignment of a string to [__proto__] reaches the setter inherited from
    [Object.prototype], which ignores it. *)
Definition set_prop (key css : string) (result : gmap string string)
  : gmap string string :=
  if String.eqb key "__proto__" then result else <[key := css]> result.

(** [parentKey ? `${parentKey}-${key}` : key] *)
Definition child_key (parentKey key : string) : string :=
  if negb (String.eqb parentKey EmptyString)
  then parentKey +:+ "-" +:+ key
  else key.

(** [(value && value.$type) || parentType] *)
Definition local_type (value parentType : json) : json :=
  let declared := if truthy value then prop value "$type" else Some value in
  match declared with
  | Some t => if truthy t then t else parentType
  | None => parentType
  end.

(** The body of the loop of [flattenTokens] for one entry of
    [Object.entries(obj)]; [flatten] is the recursive call. *)
Definition visit
    (flatten : json -> string -> json -> res (gmap string string))
    (parentKey : string) (parentType : json)
    (result : gmap string string) (key : string) (value : json)
  : res (gmap string string) :=
  if is_metadata key then Ok result
  else
    let newKey := child_key parentKey key in
    let localType := local_type value parentType in
    tokenValue ←
      (if String.eqb (typeof value) "object" then extractValue value
       else Ok JNull);
    if negb (is_null tokenValue) then
      css ← valueToCss tokenValue localType;
      match css with
      | Some c => Ok (set_prop newKey c result)
      | None => Ok result
      end
    else if truthy value && String.eqb (typeof value) "object" then
      (* Object.assign(result, flattenTokens(value, newKey, localType)) *)
      sub ← flatten value newKey localType;
      Ok (sub ∪ result)
    else Ok result.

(** [for (const [key, value] of entries) body]: an exception leaves the
    loop. *)
Fixpoint for_entries
    (body : gmap string string -> string -> json -> res (gmap string string))
    (entries : list (string * json)) (result : gmap string string)
  : res (gmap string string) :=
  match entries with
  | [] => Ok result
  | (key, value) :: entries' =>
      result' ← body result key value;
      for_entries body entries' result'
  end.

(** The same loop over the entries of an array, whose keys are the indices
    from [i] on. *)
Fixpoint for_elements
    (body : gmap string string -> string -> json -> res (gmap string string))
    (i : nat) (elements : list json) (result : gmap string string)
  : res (gmap string string) :=
  match elements with
  | [] => Ok result
  | value :: elements' =>
      result' ← body result (pretty i) value;
      for_elements body (S i) elements' result'
  end.

(** Recursively flatten a token tree into the object [{ key: cssValue }].
    The entries of an array are its elements under their indices;
    [Object.entries] has no entry for a number or a boolean and throws on
    [null]; the entries of a string are its characters, which the loop body
    passes over. *)
Fixpoint flattenTokens (obj : json) (parentKey : string) (parentType : json)
    {struct obj} : res (gmap string string) :=
  match obj with
  | JObj l => for_entries (visit flattenTokens parentKey parentType) l ∅
  | JArr l => for_elements (visit flattenTokens parentKey parentType) 0 l ∅
  | JStr _ | JNum _ | JBool _ => Ok ∅
  | JNull => Throw TypeError
  end.

(** ** Reference resolution *)

Definition PREFIX : string := "atom".

(** [ref.replace(/\./g, '-')] *)
Fixpoint dots_to_dashes (ref : string) : string :=
  match ref with
  | EmptyString => EmptyString
  | String c ref' =>
      String (if Ascii.eqb c "." then "-"%char else c) (dots_to_dashes ref')
  end.

(** The replacer function: [(_, ref) => `var(--${PREFIX}-${...})`]. *)
Definition var_reference (ref : string) : string :=
  "var(--" +:+ PREFIX +:+ "-" +:+ dots_to_dashes ref +:+ ")".

(** The regular expression [/\{([^}]+)\}/] tried just after an opening
    brace: [t] is the text that follows the brace and [ref] the characters
    other than [}] already consumed by the greedy [[^}]+].  On a match at
    least one character has been consumed when [}] is met; [found] receives
    the captured reference and the text after the match.  There is no match
    when [}] follows the opening brace at once or when the text ends before
    any [}]: fewer characters for [[^}]+] cannot help, none of them is [}]. *)
Fixpoint match_reference (found : string -> string -> string)
    (no_match : string) (ref t : string) : string :=
  match t with
  | EmptyString => no_match
  | String c t' =>
      if Ascii.eqb c "}" then
        match ref with
        | EmptyString => no_match
        | _ => found ref t'
        end
      else match_reference found no_match (ref +:+ String c EmptyString) t'
  end.

(** [cssValue.replace(/\{([^}]+)\}/g, replacer)]: the matches are searched
    from left to right, each one from the end of the previous one, and the
    text between them is copied. *)
Fixpoint replace_references (cssValue : string) : string :=
  match cssValue with
  | EmptyString => EmptyString
  | String c rest =>
      if Ascii.eqb c "{" then
        match_reference
          (fun ref after => var_reference ref +:+ replace_references after)
          (String c (replace_references rest))
          EmptyString rest
      else String c (replace_references rest)
  end.

(** Convert token references [{path.to.token}] to
    [var(--atom-path-to-token)]. *)
Definition resolveReferences (cssValue : json) : json :=
  match cssValue with
  | JStr s => JStr (replace_references s)
  | _ => cssValue
  end.

End Values.

(** ** Module compiler

    The script [build.js] up to the combined token file.  Paths are the
    normalised strings [path.join] returns; the file system is the map of the
    regular files to their contents and the set of the directories.  The
    content of a file is its text, as [readFileSync(p, 'utf8')] returns it
    and [writeFileSync] writes it. *)

Record filesystem : Type := {
  files : gmap string string;
  dirs : gset string
}.

Definition newline : string := String (ascii_of_N 10) EmptyString.

(** [path.join(a, b)] for a normalised [a] and a relative [b] without [.]
    or [..] segments. *)
Definition path_join (a b : string) : string := a +:+ "/" +:+ b.

(** The part of a path before its last separator, if it has one. *)
Fixpoint parent (p : string) : option string :=
  match p with
  | EmptyString => None
  | String c p' =>
      match parent p' with
      | Some d => Some (String c d)
      | None => if Ascii.eqb c "/" then Some EmptyString else None
      end
  end.

(** [path.dirname(p)] for a normalised path. *)
Definition dirname (p : string) : string :=
  match parent p with
  | Some EmptyString => "/"
  | Some d => d
  | None => "."
  end.

(** The directories above a path, the nearest last: every proper prefix
    that ends just before a separator. *)
Fixpoint ancestors (prefix p : string) : list string :=
  match p with
  | EmptyString => []
  | String c p' =>
      ((if Ascii.eqb c "/" && negb (String.eqb prefix EmptyString)
        then [prefix] else [])
       ++ ancestors (prefix +:+ String c EmptyString) p')%list
  end.

(** [fs.existsSync(p)] *)
Definition existsSync (fs : filesystem) (p : string) : bool :=
  bool_decide (is_Some (files fs !! p)) || bool_decide (p ∈ dirs fs).

(** [fs.mkdirSync(dir, { recursive: true })]: creates the directory and the
    missing directories above it; throws when a regular file is in the
    way. *)
Definition mkdirSync (fs : filesystem) (dir : string) : res filesystem :=
  let chain := (ancestors EmptyString dir ++ [dir])%list in
  if forallb (fun d => bool_decide (files fs !! d = None)) chain
  then Ok {| files := files fs; dirs := list_to_set chain ∪ dirs fs |}
  else Throw SystemError.

(** [fs.readFileSync(p, 'utf8')] *)
Definition readFileSync (fs : filesystem) (p : string) : res string :=
  match files fs !! p with
  | Some content => Ok content
  | None => Throw SystemError
  end.

(** [fs.writeFileSync(p, content)]: throws when [p] is a directory or when
    the directory of [p] does not exist. *)
Definition writeFileSync (fs : filesystem) (p content : string) : res filesystem :=
  if bool_decide (p ∈ dirs fs) then Throw SystemError
  else if bool_decide (dirname p ∈ dirs fs)
  then Ok {| files := <[p := content]> (files fs); dirs := dirs fs |}
  else Throw SystemError.

Record module : Type := {
  entry : string;
  output : string
}.

Definition modules : list module := [
  (* Tokens *)
  {| entry := "tokens/_primitive.scss"; output := "tokens/primitives.css" |};
  {| entry := "tokens/_semantic.scss"; output := "tokens/semantic.css" |};
  (* Foundations *)
  {| entry := "foundations/typography/_index.scss";
     output := "foundations/typography.css" |};
  {| entry := "foundations/colors/_index.scss";
     output := "foundations/colors.css" |};
  {| entry := "foundations/spacing/_index.scss";
     output := "foundations/spacing.css" |};
  {| entry := "foundations/layout/_index.scss";
     output := "foundations/layout.css" |};
  {| entry := "foundations/elevation/_index.scss";
     output := "foundations/elevation.css" |};
  {| entry := "foundations/borders/_index.scss";
     output := "foundations/borders.css" |};
  {| entry := "foundations/motion/_index.scss";
     output := "foundations/motion.css" |};
  (* Components *)
  {| entry := "components/button/_index.scss";
     output := "components/button.css" |};
  {| entry := "components/card/_index.scss";
     output := "components/card.css" |};
  {| entry := "components/input/_index.scss";
     output := "components/input.css" |};
  {| entry := "components/modal/_index.scss";
     output := "components/modal.css" |};
  {| entry := "components/badge/_index.scss";
     output := "components/badge.css" |};
  {| entry := "components/radio/_index.scss";
     output := "components/radio.css" |};
  {| entry := "components/toggle/_index.scss";
     output := "components/toggle.css" |};
  {| entry := "components/tag/_index.scss";
     output := "components/tag.css" |};
  (* Extensions *)
  {| entry := "extensions/inbox/_index.scss";
     output := "extensions/inbox.css" |};
  {| entry := "extensions/ai/_index.scss"; output := "extensions/ai.css" |};
  {| entry := "extensions/notifications/_index.scss";
     output := "extensions/notifications.css" |};
  {| entry := "extensions/indicators/_index.scss";
     output := "extensions/indicators.css" |};
  (* Themes *)
  {| entry := "themes/_theme-dark.scss"; output := "themes/dark.css" |};
  (* Utilities *)
  {| entry := "utilities/_index.scss"; output := "utilities.css" |}
].

(** The variables of the script: the file system it acts on, the two
    counters and the lines written to the console. *)
Record build_state : Type := {
  fs : filesystem;
  built : nat;
  skipped : nat;
  console : list string
}.

Section ModuleCompiler.

(** [path.join(__dirname, '..')], the directory that holds [src] and
    [dist]. *)
Variable root : string.

(** The external compiler, run by [execSync] as
    [sass "<entryPath>" "<outputPath>" --style=expanded --no-source-map]:
    whatever it does to the file system, together with [None] when it exits
    normally and, when [execSync] throws, the text the handler prints
    ([err.stderr?.toString().trim() || err.message]). *)
Variable sass : filesystem -> string -> string -> filesystem * option string.

Definition SRC : string := path_join root "src".
Definition DIST : string := path_join root "dist".

(** The body of the loop over the manifest. *)
Definition build_module (st : build_state) (mod_ : module) : res build_state :=
  let entryPath := path_join SRC (entry mod_) in
  let outputPath := path_join DIST (output mod_) in
  if negb (existsSync (fs st) entryPath) then
    Ok {| fs := fs st;
          built := built st;
          skipped := S (skipped st);
          console :=
            (console st
             ++ ["  SKIP: " +:+ entry mod_ +:+ " (not found)"])%list |}
  else
    (* Ensure output directory exists *)
    let outputDir := dirname outputPath in
    fs1 ← mkdirSync (fs st) outputDir;
    match sass fs1 entryPath outputPath with
    | (fs2, None) =>
        Ok {| fs := fs2;
              built := S (built st);
              skipped := skipped st;
              console := (console st ++ ["  OK: " +:+ output mod_])%list |}
    | (fs2, Some message) =>
        Ok {| fs := fs2;
              built := built st;
              skipped := skipped st;
              console :=
                (console st
                 ++ ["  FAIL: " +:+ output mod_ +:+ " — " +:+ message])%list |}
    end.

(** [for (const mod of modules) { ... }]; an exception that no handler
    catches ends the script. *)
Fixpoint build_modules (mods : list module) (st : build_state)
  : res build_state :=
  match mods with
  | [] => Ok st
  | mod_ :: mods' =>
      st' ← build_module st mod_;
      build_modules mods' st'
  end.

Definition primPath : string :=
  path_join (path_join DIST "tokens") "primitives.css".
Definition semPath : string :=
  path_join (path_join DIST "tokens") "semantic.css".
Definition allTokensPath : string :=
  path_join (path_join DIST "tokens") "all-tokens.css".

(** Generate combined token file. *)
Definition combine_tokens (st : build_state) : res build_state :=
  if existsSync (fs st) primPath && existsSync (fs st) semPath then
    prim ← readFileSync (fs st) primPath;
    sem ← readFileSync (fs st) semPath;
    let combined := prim +:+ newline +:+ sem in
    fs' ← writeFileSync (fs st) allTokensPath combined;
    Ok {| fs := fs';
          built := built st;
          skipped := skipped st;
          console :=
            (console st ++ ["  OK: tokens/all-tokens.css (combined)"])%list |}
  else Ok st.

(** The script from its first statement to the combined token file. *)
Definition build (fs0 : filesystem) : res build_state :=
  let st0 := {| fs := fs0; built := 0; skipped := 0;
                console := ["Building individual modules..." +:+ newline] |} in
  st ← build_modules modules st0;
  combine_tokens st.

End ModuleCompiler.

(** ** Specifications *)

Section Specifications.

Context `{JsNumber}.

(** *** Strings with references

    A string with references is a sequence of plain text and references
    [{path}]. *)

Inductive segment : Type :=
  | Text (text : string)
  | Reference (path : string).

Fixpoint occurs (c : ascii) (s : string) : bool :=
  match s with
  | EmptyString => false
  | String c' s' => Ascii.eqb c' c || occurs c s'
  end.

Definition brace_free (s : string) : bool :=
  negb (occurs "{" s) && negb (occurs "}" s).

(** Plain text holds no brace; a path is not empty and holds no brace. *)
Definition well_formed (seg : segment) : bool :=
  match seg with
  | Text text => brace_free text
  | Reference path => negb (String.eqb path EmptyString) && brace_free path
  end.

(** The string as it is written in a token file. *)
Fixpoint written (segs : list segment) : string :=
  match segs with
  | [] => EmptyString
  | Text text :: segs' => text +:+ written segs'
  | Reference path :: segs' => "{" +:+ path +:+ "}" +:+ written segs'
  end.

(** The pieces of a path between its dots. *)
Fixpoint pieces (path : string) : list string :=
  match path with
  | EmptyString => [EmptyString]
  | String c path' =>
      if Ascii.eqb c "." then EmptyString :: pieces path'
      else
        match pieces path' with
        | piece :: others => String c piece :: others
        | [] => [String c EmptyString]
        end
  end.

(** The pieces of a path joined by dashes. *)
Definition dashed (path : string) : string := String.concat "-" (pieces path).

(** The same string with each reference rewritten to the custom property
    named by its path, the dots of the path replaced by dashes. *)
Fixpoint rewritten (segs : list segment) : string :=
  match segs with
  | [] => EmptyString
  | Text text :: segs' => text +:+ rewritten segs'
  | Reference path :: segs' =>
      "var(--atom-" +:+ dashed path +:+ ")" +:+ rewritten segs'
  end.

(** *** Effective types

    The flattening in which every node carries the chain of the nodes above
    it, the nearest first, and looks its effective type up in that chain: the
    type of the first node of the chain, the node itself included, that
    declares one, and [inherited] when no node of the chain does.  What it
    means for a node to declare a type is the parameter [declared]. *)

Section EffectiveType.

Variable declared : json -> option json.

Fixpoint effective_type (chain : list json) (inherited : json) : json :=
  match chain with
  | [] => inherited
  | node :: above =>
      match declared node with
      | Some type => type
      | None => effective_type above inherited
      end
  end.

Definition visit_node
    (flatten : json -> string -> list json -> res (gmap string string))
    (parentKey : string) (above : list json) (inherited : json)
    (result : gmap string string) (key : string) (value : json)
  : res (gmap string string) :=
  if is_metadata key then Ok result
  else
    let newKey := child_key parentKey key in
    let type := effective_type (value :: above) inherited in
    tokenValue ←
      (if String.eqb (typeof value) "object" then extractValue value
       else Ok JNull);
    if negb (is_null tokenValue) then
      css ← valueToCss tokenValue type;
      match css with
      | Some c => Ok (set_prop newKey c result)
      | None => Ok result
      end
    else if truthy value && String.eqb (typeof value) "object" then
      sub ← flatten value newKey (value :: above);
      Ok (sub ∪ result)
    else Ok result.

Fixpoint flatten_nodes (inherited : json) (obj : json) (parentKey : string)
    (above : list json) {struct obj} : res (gmap string string) :=
  match obj with
  | JObj l =>
      for_entries
        (visit_node (flatten_nodes inherited) parentKey above inherited) l ∅
  | JArr l =>
      for_elements
        (visit_node (flatten_nodes inherited) parentKey above inherited) 0 l ∅
  | JStr _ | JNum _ | JBool _ => Ok ∅
  | JNull => Throw TypeError
  end.

End EffectiveType.

(** A node declares a type when it has a [$type] property, whatever its
    value. *)
Definition declares_present (node : json) : option json :=
  prop node "$type".

(** A node declares a type when it has a [$type] property whose value is
    truthy: not [null], [false], [0] or the empty string. *)
Definition declares_truthy (node : json) : option json :=
  match prop node "$type" with
  | Some type => if truthy type then Some type else None
  | None => None
  end.

(** A bare string, number or boolean. *)
Definition is_bare (value : json) : bool :=
  match value with
  | JStr _ | JNum _ | JBool _ => true
  | JNull | JArr _ | JObj _ => false
  end.

End Specifications.

(** ** Token trees

    Shapes of token trees the properties of the flattening are stated
    for. *)

Section Trees.

Context `{JsNumber}.

(** Nothing in the value throws when it is read or converted to a string:
    the value holds no [null] and no object with a property [toString]. *)
Fixpoint printable (v : json) : bool :=
  match v with
  | JNull => false
  | JBool _ | JNum _ | JStr _ => true
  | JArr l => forallb printable l
  | JObj l =>
      negb (defined (assoc "toString" l))
      && forallb (fun kv => match kv with (_, x) => printable x end) l
  end.

(** The key of the token reached by [path] under [parentKey]: the keys
    joined by dashes, the parent key first when there is one. *)
Definition path_key (parentKey : string) (path : list string) : string :=
  String.concat "-"
    (if String.eqb parentKey EmptyString then path else parentKey :: path).

(** The groups named by [path], one inside the other, around a node. *)
Fixpoint nested (path : list string) (node : json) : json :=
  match path with
  | [] => node
  | key :: path' => JObj [(key, nested path' node)]
  end.

(** A key that can name a group on the way to a token: it is not empty, does
    not begin with [$] and is not [value], the name under which a node keeps
    a legacy value. *)
Definition group_key (key : string) : bool :=
  negb (String.eqb key EmptyString) && negb (is_metadata key)
  && negb (String.eqb key "value").

(** What holds of every key of a flattening under [parentKey]. *)
Definition flattened_key (parentKey key : string) : Prop :=
  key <> "__proto__"
  /\ (parentKey <> EmptyString ->
      exists rest : string, key = parentKey +:+ "-" +:+ rest)
  /\ (is_metadata parentKey = false -> is_metadata key = false).

(** What [JSON.stringify] writes between the braces of an object. *)
Definition members (l : list (string * json)) : string :=
  String.concat ","
    (map (fun kv => match kv with
                    | (k, x) => quote k +:+ ":" +:+ stringify x
                    end) l).

End Trees.

(** ** The first token normaliser

    The flattening of [tokens-to-scss.js], written for token files that keep
    their values under [value] and have neither types nor composite
    values. *)

Module Legacy.

Section Flattening.

Context `{JsNumber}.

(** The object under construction: its own properties, and whether an
    assignment to [__proto__] still reaches the accessor of
    [Object.prototype].  It does until the prototype is replaced by [null] or
    by an object that has a property of that name itself. *)
Record object : Type := {
  own : gmap string json;
  plain : bool
}.

Definition empty_object : object := {| own := ∅; plain := true |}.

(** [result[key] = v].  Through the accessor, [null] and objects replace the
    prototype and every other value is ignored; no own property is
    created. *)
Definition set_prop (key : string) (v : json) (result : object) : object :=
  if String.eqb key "__proto__" && plain result then
    match v with
    | JNull => {| own := own result; plain := false |}
    | JObj l =>
        {| own := own result; plain := negb (defined (assoc "__proto__" l)) |}
    | _ => result
    end
  else {| own := <[key := v]> (own result); plain := plain result |}.

(** [Object.assign(result, sub)]: the own properties of [sub] are assigned
    one by one.  Their keys are distinct and only the assignment to
    [__proto__] depends on more than its key, so that the order does not
    matter. *)
Definition assign (result sub : object) : object :=
  let others :=
    {| own := delete "__proto__" (own sub) ∪ own result;
       plain := plain result |} in
  match own sub !! "__proto__" with
  | Some v => set_prop "__proto__" v others
  | None => others
  end.

(** ['value' in value] *)
Definition has_value (value : json) : bool :=
  defined (prop value "value").

(** The body of the loop of [flattenTokens]. *)
Definition visit (flatten : json -> string -> res object)
    (parentKey : string) (result : object) (key : string) (value : json)
  : res object :=
  let newKey := child_key parentKey key in
  if truthy value && String.eqb (typeof value) "object" && has_value value
  then
    Ok (set_prop newKey (default JNull (prop value "value")) result)
  else if truthy value && String.eqb (typeof value) "object" then
    sub ← flatten value newKey;
    Ok (assign result sub)
  else Ok result.

Fixpoint for_entries (body : object -> string -> json -> res object)
    (entries : list (string * json)) (result : object) : res object :=
  match entries with
  | [] => Ok result
  | (key, value) :: entries' =>
      result' ← body result key value;
      for_entries body entries' result'
  end.

Fixpoint for_elements (body : object -> string -> json -> res object)
    (i : nat) (elements : list json) (result : object) : res object :=
  match elements with
  | [] => Ok result
  | value :: elements' =>
      result' ← body result (pretty i) value;
      for_elements body (S i) elements' result'
  end.

(** Flatten nested JSON to CSS variable format. *)
Fixpoint flattenTokens (obj : json) (parentKey : string) {struct obj}
  : res object :=
  match obj with
  | JObj l => for_entries (visit flattenTokens parentKey) l empty_object
  | JArr l => for_elements (visit flattenTokens parentKey) 0 l empty_object
  | JStr _ | JNum _ | JBool _ => Ok empty_object
  | JNull => Throw TypeError
  end.

(** A node of a token file in the first convention: a token, which keeps a
    string, a number or a boolean under [value] and has no [$value]; a group
    of such nodes, none of them under a key that begins with [$]; or a bare
    string, number or boolean. *)
Fixpoint legacy_node (v : json) : bool :=
  match v with
  | JNull => false
  | JBool _ | JNum _ | JStr _ => true
  | JArr l => forallb legacy_node l
  | JObj l =>
      match assoc "value" l with
      | Some x => is_bare x && negb (defined (assoc "$value" l))
      | None =>
          forallb (fun kv => match kv with
                             | (k, x) => negb (is_metadata k) && legacy_node x
                             end) l
      end
  end.

(** A token file in the first convention: its root is a group, whatever its
    keys. *)
Definition legacy_file (obj : json) : bool :=
  match obj with
  | JObj l =>
      forallb (fun kv => match kv with
                         | (k, x) => negb (is_metadata k) && legacy_node x
                         end) l
  | _ => legacy_node obj
  end.

End Flattening.

End Legacy.

Section LegacyAgreement.

Context `{JsNumber}.

(** The result of the first flattening and of the flattening that converts
    values stand for the same object: no prototype has been replaced, and
    the values of the second are the strings of the values of the first,
    none of which throws when it is converted to a string. *)
Definition same_object (legacy : Legacy.object) (result : gmap string string)
  : Prop :=
  Legacy.plain legacy = true
  /\ Legacy.own legacy !! "__proto__" = None
  /\ to_string <$> Legacy.own legacy = Ok <$> result.

End LegacyAgreement.

(** ** Watcher

    The handler of [watch.js].  [execSync] blocks, so that the handlers of
    the change events run one after the other, each to its end. *)

Record watch_state (W : Type) : Type := {
  building : bool;
  (** what the commands act on *)
  world : W;
  (** the lines of [console.log] *)
  stdout : list string;
  (** the lines of [console.error] *)
  stderr : list string
}.

Arguments building {W} _.
Arguments world {W} _.
Arguments stdout {W} _.
Arguments stderr {W} _.

Section Watcher.

Variable W : Type.

(** [path.join(__dirname, '..')] *)
Variable root : string.

(** [execSync(command, { cwd: root, stdio: 'inherit' })]: what the command
    does, and the message of the error [execSync] throws when the command
    fails. *)
Variable execSync : W -> string -> W * option string.

(** [path.relative(root, changedFile)] *)
Variable relative : string -> string -> string.

Definition TOKENS : string := path_join root "tokens".

Definition rebuild (st : watch_state W) (changedFile : string)
  : watch_state W :=
  if building st then st
  else
    let out1 :=
      (stdout st
       ++ [newline +:+ "Changed: " +:+ relative root changedFile])%list in
    (* try { ... } catch (err) { console.error('Build failed:', ...) } *)
    let attempt : W * list string * option string :=
      let regenerated :=
        (* If tokens changed, regenerate SCSS first *)
        if String.prefix TOKENS changedFile then
          let (w, failure) := execSync (world st) "npm run tokens" in
          (w, (out1 ++ ["Regenerating tokens..."])%list, failure)
        else (world st, out1, None) in
      match regenerated with
      | (w, out2, Some message) => (w, out2, Some message)
      | (w, out2, None) =>
          let (w', failure) := execSync w "npm run build:core" in
          match failure with
          | Some message =>
              (w', (out2 ++ ["Building core..."])%list, Some message)
          | None =>
              (w', (out2 ++ ["Building core..."; "Build complete."])%list,
               None)
          end
      end in
    match attempt with
    | (w, out, failure) =>
        {| building := false;
           world := w;
           stdout := out;
           stderr :=
             match failure with
             | Some message =>
                 (stderr st ++ ["Build failed: " +:+ message])%list
             | None => stderr st
             end |}
    end.

(** The handler run on the change events of a session, in their order. *)
Definition watch (events : list string) (st : watch_state W)
  : watch_state W :=
  fold_left rebuild events st.

(** The line that reports a change. *)
Definition is_change_report (line : string) : bool :=
  String.prefix (newline +:+ "Changed: ") line.

End Watcher.

(** ** Sample inputs *)

(** An integer as a JSON number. *)
Definition int (z : Z) : @json IntNumber := JNum z.

(** A curve [out] that declares the empty string as its [$type], with the
    value [[0, 0, 1, 1]], in a group [ease] of type [cubicBezier]. *)
Definition sample_curves : json :=
  JObj [("ease",
         JObj [("$type", JStr "cubicBezier");
               ("out",
                JObj [("$type", JStr EmptyString);
                      ("$value",
                       JArr [int 0; int 0; int 1; int 1])])])].

(** A token file whose root object declares the type of its tokens:
    [{ "$type": "cubicBezier", "in": { "$value": [0, 0, 1, 1] } }]. *)
Definition sample_root_type : json :=
  JObj [("$type", JStr "cubicBezier");
        ("in", JObj [("$value", JArr [int 0; int 0; int 1; int 1])])].

(** A token in the legacy convention whose value is [null]:
    [{ "a": { "value": null } }]. *)
Definition sample_legacy_null : json :=
  JObj [("a", JObj [("value", JNull)])].

(** An output tree in which the two token files have been built, and no
    source tree. *)
Definition sample_fs : filesystem := {|
  files := {[ "/repo/dist/tokens/primitives.css" := ":root { --a: 1; }";
              "/repo/dist/tokens/semantic.css" := ":root { --b: 2; }" ]};
  dirs := {[ "/repo"; "/repo/dist"; "/repo/dist/tokens" ]}
|}.

Definition sample_state : build_state :=
  {| fs := sample_fs; built := 0; skipped := 0; console := [] |}.

(** A compiler that fails without touching the file system. *)
Definition sample_sass (fs : filesystem) (entryPath outputPath : string)
  : filesystem * option string :=
  (fs, Some "Error: unreadable").

(** A token file in the first convention:
    [{ "color": { "primary": { "value": "#fff" } },
       "space": [{ "value": 4 }], "version": "1" }]. *)
Definition sample_legacy_file : json :=
  JObj [("color", JObj [("primary", JObj [("value", JStr "#fff")])]);
        ("space", JArr [JObj [("value", int 4)]]);
        ("version", JStr "1")].

(** A token tree that holds a [null]: [{ "a": [null, { "value": 1 }] }]. *)
Definition sample_with_null : json :=
  JObj [("a", JArr [JNull; JObj [("value", int 1)]])].

(** A project with the source of the utilities, in which a regular file
    stands where the output directory should be. *)
Definition sample_blocked_fs : filesystem := {|
  files := {[ "/repo/src/utilities/_index.scss" := ".u { margin: 0; }";
              "/repo/dist" := "not a directory" ]};
  dirs := {[ "/repo"; "/repo/src"; "/repo/src/utilities" ]}
|}.

(** A file system without files. *)
Definition sample_empty_fs : filesystem := {| files := ∅; dirs := ∅ |}.

(** Commands that only get recorded; the regeneration of the tokens
    fails. *)
Definition sample_execSync (w : list string) (command : string)
  : list string * option string :=
  ((w ++ [command])%list,
   if String.eqb command "npm run tokens" then Some "Command failed"
   else None).

Definition sample_watch_state : watch_state (list string) :=
  {| building := false; world := []; stdout := []; stderr := [] |}.

(** * Properties *)

(** ** Strings *)

Lemma string_app_nil_l (s : string) : EmptyString +:+ s = s.
Proof. reflexivity. Qed.

Lemma string_app_cons (c : ascii) (s1 s2 : string) :
  String c s1 +:+ s2 = String c (s1 +:+ s2).
Proof. reflexivity. Qed.

Lemma string_app_nil_r (s : string) : s +:+ EmptyString = s.
Proof.
  induction s as [|c s IH]; [done |].
  by rewrite string_app_cons, IH.
Qed.

Lemma string_app_assoc (s1 s2 s3 : string) :
  (s1 +:+ s2) +:+ s3 = s1 +:+ (s2 +:+ s3).
Proof.
  induction s1 as [|c s1 IH]; [done |].
  by rewrite !string_app_cons, IH.
Qed.

Lemma occurs_app (c : ascii) (s1 s2 : string) :
  occurs c (s1 +:+ s2) = occurs c s1 || occurs c s2.
Proof.
  induction s1 as [|c' s1 IH]; [done |].
  rewrite string_app_cons. simpl. by rewrite IH, orb_assoc.
Qed.

(** ** Value conversion *)

Section ValueConversion.

Context `{JsNumber}.

Lemma assoc_defined (k : string) (l : list (string * json)) (v : json) :
  assoc k l = Some v -> defined (prop (JObj l) k) = true.
Proof. simpl. by intros ->. Qed.

Lemma strings_ok {A : Type} (f : A -> res string) (l : list A) :
  Forall (fun x => exists s, f x = Ok s) l ->
  exists elements, strings f l = Ok elements.
Proof.
  induction 1 as [|x l [s Hx] _ [elements IH]]; simpl; [by eexists |].
  rewrite Hx, IH. simpl. by eexists.
Qed.

Lemma strings_throws {A : Type} (f : A -> res string) (l : list A)
    (e : exn) :
  Forall (fun x => forall e', f x = Throw e' -> e' = TypeError) l ->
  strings f l = Throw e -> e = TypeError.
Proof.
  induction 1 as [|x l Hx _ IH]; simpl; [discriminate |].
  destruct (f x) as [s|e'] eqn:Hfx; simpl.
  - destruct (strings f l) as [rest|e'']; simpl; [discriminate |].
    intros [= <-]. by apply IH.
  - intros [= <-]. by apply Hx.
Qed.

(** A value that holds no [null] and no object with a property [toString]
    is converted to a string without an exception. *)
Lemma to_string_printable (v : json) :
  printable v = true -> exists s, to_string v = Ok s.
Proof.
  induction v as [| | | |l IH|l IH] using json_ind; intros Hv;
    try discriminate Hv; try (by eexists).
  - simpl in *.
    destruct (strings_ok
                (fun x => match x with
                          | JNull => Ok EmptyString
                          | _ => to_string x
                          end) l) as [elements ->]; [| by eexists].
    apply Forall_forall. intros x Hx.
    assert (Hprintable : printable x = true)
      by (by apply (proj1 (forallb_forall _ _) Hv), list_elem_of_In).
    destruct x; try (by eexists);
      by apply (proj1 (Forall_forall _ _) IH _ Hx).
  - simpl in *. apply andb_prop in Hv as [Hown _].
    destruct (assoc "toString" l); [discriminate Hown | by eexists].
Qed.

(** The conversion to a string throws nothing but a [TypeError]. *)
Lemma to_string_TypeError (v : json) (e : exn) :
  to_string v = Throw e -> e = TypeError.
Proof.
  revert e. induction v as [| | | |l IH|l IH] using json_ind; intros e;
    try discriminate; simpl.
  - destruct (strings _ l) as [elements|e'] eqn:Hl; simpl; [discriminate |].
    intros [= <-]. eapply strings_throws; [| exact Hl].
    eapply Forall_impl; [exact IH |].
    intros x IHx e2. destruct x; try discriminate; apply IHx.
  - destruct (assoc "toString" l); [by intros [= <-] | discriminate].
Qed.

(** An object with a [value] property [v] and a [unit] property [u] whose
    value is truthy (a non-empty string, for one) is converted to the string
    of [v] followed by the string of [u], by [dimensionToCss] and by
    [valueToCss] under every type. *)
Lemma dimension_value_unit (l : list (string * json)) (type v u : json) :
  assoc "value" l = Some v ->
  assoc "unit" l = Some u ->
  truthy u = true ->
  dimensionToCss (Some (JObj l))
  = (value ← to_string v; unit ← to_string u; Ok (value +:+ unit))
  /\ valueToCss (JObj l) type
     = (value ← to_string v; unit ← to_string u; Ok (Some (value +:+ unit))).
Proof.
  intros Hv Hu Ht.
  assert (Hdim : dimensionToCss (Some (JObj l))
                 = (value ← to_string v; unit ← to_string u;
                    Ok (value +:+ unit))).
  { unfold dimensionToCss. simpl. by rewrite Hv, Hu; simpl; rewrite Ht. }
  split; [exact Hdim |].
  unfold valueToCss.
  rewrite (assoc_defined _ _ _ Hv), (assoc_defined _ _ _ Hu).
  cbn [andb]. rewrite Hdim.
  destruct (to_string v); simpl; [| done]. by destruct (to_string u).
Qed.

(** C2: under the type [cubicBezier] an array of four numbers is converted
    to [cubic-bezier(n1, n2, n3, n4)], the numbers in the order of the array,
    and an array of any other length to the string [String] gives for it,
    with the outcome of [String]: no exception is thrown for the length, and
    none at all when the array holds nothing that throws when it is
    converted to a string. *)
Theorem cubic_bezier_array :
  (forall a b c d : num,
      valueToCss (JArr [JNum a; JNum b; JNum c; JNum d]) (JStr "cubicBezier")
      = Ok (Some ("cubic-bezier(" +:+ num_to_string a +:+ ", "
                  +:+ num_to_string b +:+ ", " +:+ num_to_string c +:+ ", "
                  +:+ num_to_string d +:+ ")")))
  /\ (forall l : list json,
         length l <> 4 ->
         valueToCss (JArr l) (JStr "cubicBezier")
         = (css ← to_string (JArr l); Ok (Some css)))
  /\ (forall l : list json,
         length l <> 4 ->
         printable (JArr l) = true ->
         exists css : string,
           to_string (JArr l) = Ok css
           /\ valueToCss (JArr l) (JStr "cubicBezier") = Ok (Some css)).
Proof.
  assert (Hother : forall l : list json,
    length l <> 4 ->
    valueToCss (JArr l) (JStr "cubicBezier")
    = (css ← to_string (JArr l); Ok (Some css))).
  { intros l Hlen. unfold valueToCss, cubicBezierToCss.
    cbn [is_string String.eqb Ascii.eqb Bool.eqb].
    by destruct (Nat.eqb_spec (length l) 4). }
  split; [| split; [exact Hother |]].
  - intros a b c d. unfold valueToCss, cubicBezierToCss, join. simpl.
    by rewrite !string_app_assoc.
  - intros l Hlen Hl. destruct (to_string_printable _ Hl) as [css Hcss].
    exists css. split; [done |]. by rewrite Hother, Hcss.
Qed.

(** X1: only [null] is converted to [null]. *)
Lemma valueToCss_not_null (val type : json) :
  is_null val = false -> valueToCss val type <> Ok None.
Proof.
  intros Hval. destruct val; try discriminate Hval; unfold valueToCss;
    try discriminate.
  - destruct (is_string type "cubicBezier");
      [by destruct (cubicBezierToCss _) |].
    destruct (is_string type "shadow");
      [by destruct (shadowToCss _) | by destruct (to_string _)].
  - destruct (_ && _); [by destruct (dimensionToCss _) |].
    destruct (defined _); [| discriminate].
    by destruct (singleShadowToCss _).
Qed.

(** C4: an object with a [value] and a [unit] property is converted by
    [dimensionToCss] whatever the type, [shadow] included, and whatever other
    properties it has. *)
Theorem shape_before_type (l : list (string * json)) (type v u : json) :
  assoc "value" l = Some v ->
  assoc "unit" l = Some u ->
  valueToCss (JObj l) type
  = (css ← dimensionToCss (Some (JObj l)); Ok (Some css)).
Proof.
  intros Hv Hu. unfold valueToCss.
  by rewrite (assoc_defined _ _ _ Hv), (assoc_defined _ _ _ Hu).
Qed.

End ValueConversion.

(** ** Token flattening *)

Section Flattening.

Context `{JsNumber}.

Implicit Types (body : gmap string string -> string -> json
                       -> res (gmap string string)).

Lemma for_entries_app body (es1 es2 : list (string * json))
    (result : gmap string string) :
  for_entries body (es1 ++ es2) result
  = (result' ← for_entries body es1 result; for_entries body es2 result').
Proof.
  revert result. induction es1 as [|[k v] es1 IH]; intros result; [done |].
  simpl. destruct (body result k v) as [result'|e]; simpl; [apply IH | done].
Qed.

(** Two loop bodies that agree on every entry of a list give the same
    loop. *)
Lemma for_entries_ext body1 body2 (es : list (string * json))
    (result : gmap string string) :
  Forall (fun kv => forall r, body1 r (fst kv) (snd kv)
                              = body2 r (fst kv) (snd kv)) es ->
  for_entries body1 es result = for_entries body2 es result.
Proof.
  intros Hes. revert result.
  induction Hes as [|[k v] es Hkv _ IH]; intros result; [done |].
  simpl in *. rewrite Hkv.
  destruct (body2 result k v) as [result'|e]; simpl; [apply IH | done].
Qed.

Lemma for_elements_ext body1 body2 (i : nat) (es : list json)
    (result : gmap string string) :
  Forall (fun v => forall r k, body1 r k v = body2 r k v) es ->
  for_elements body1 i es result = for_elements body2 i es result.
Proof.
  intros Hes. revert i result.
  induction Hes as [|v es Hv _ IH]; intros i result; [done |].
  simpl. rewrite Hv.
  destruct (body2 result (pretty i) v) as [result'|e]; simpl;
    [apply IH | done].
Qed.

(** An entry over which the loop body passes can be removed from the
    object. *)
Lemma flattenTokens_passed_over (before after : list (string * json))
    (key : string) (value : json) (parentKey : string) (parentType : json) :
  (forall result,
      visit flattenTokens parentKey parentType result key value = Ok result) ->
  flattenTokens (JObj (before ++ (key, value) :: after)) parentKey parentType
  = flattenTokens (JObj (before ++ after)) parentKey parentType.
Proof.
  intros Hvisit. simpl. rewrite !for_entries_app.
  destruct (for_entries _ before ∅) as [result|e]; simpl; [| done].
  by rewrite Hvisit.
Qed.


(** C7: an entry whose key begins with [$] is passed over: the object
    flattens to what it flattens to without the entry, whatever the value of
    the entry holds, so that nothing under the key is emitted or even
    looked at. *)
Theorem metadata_key_skipped (before after : list (string * json))
    (key : string) (value : json) (parentKey : string) (parentType : json) :
  is_metadata key = true ->
  flattenTokens (JObj (before ++ (key, value) :: after)) parentKey parentType
  = flattenTokens (JObj (before ++ after)) parentKey parentType.
Proof.
  intros Hkey. apply flattenTokens_passed_over. intros result.
  unfold visit. by rewrite Hkey.
Qed.

(** C10: an entry whose value is a bare string, number or boolean is dropped:
    the object flattens to what it flattens to without the entry; no entry is
    emitted for the key and nothing is recursed into. *)
Theorem bare_value_dropped (before after : list (string * json))
    (key : string) (value : json) (parentKey : string) (parentType : json) :
  is_bare value = true ->
  flattenTokens (JObj (before ++ (key, value) :: after)) parentKey parentType
  = flattenTokens (JObj (before ++ after)) parentKey parentType.
Proof.
  intros Hbare. apply flattenTokens_passed_over. intros result.
  unfold visit. destruct (is_metadata key); [done |].
  destruct value; try discriminate Hbare; simpl; by rewrite ?andb_false_r.
Qed.

(** The type the loop body resolves for a node is the effective type of the
    chain that starts at the node. *)
Lemma effective_type_node (value : json) (above : list json)
    (inherited : json) :
  effective_type declares_truthy (value :: above) inherited
  = local_type value (effective_type declares_truthy above inherited).
Proof.
  unfold local_type, declares_truthy. simpl.
  destruct (truthy value) eqn:Htruthy.
  - destruct (prop value "$type") as [type|]; [| done].
    by destruct (truthy type).
  - rewrite Htruthy. by destruct value.
Qed.

Lemma flatten_nodes_flattenTokens (inherited obj : json) :
  forall (parentKey : string) (above : list json),
    flatten_nodes declares_truthy inherited obj parentKey above
    = flattenTokens obj parentKey
        (effective_type declares_truthy above inherited).
Proof.
  assert (Hvisit : forall value : json,
    (forall parentKey above,
        flatten_nodes declares_truthy inherited value parentKey above
        = flattenTokens value parentKey
            (effective_type declares_truthy above inherited)) ->
    forall parentKey above result key,
      visit_node declares_truthy (flatten_nodes declares_truthy inherited)
        parentKey above inherited result key value
      = visit flattenTokens parentKey
          (effective_type declares_truthy above inherited) result key value).
  { intros value IH parentKey above result key. unfold visit_node, visit.
    by rewrite IH, effective_type_node. }
  induction obj as [| | | |l IH|l IH] using json_ind;
    intros parentKey above; try done; simpl.
  - apply for_elements_ext. eapply Forall_impl; [exact IH |].
    intros value IHv r k. by apply Hvisit.
  - apply for_entries_ext. eapply Forall_impl; [exact IH |].
    intros [k value] IHv r. by apply Hvisit.
Qed.

(** C5, as amended: in a token tree whose root declares no type,
    [flattenTokens] converts the value of every node with the node's own
    [$type] when the node has one whose value is truthy, and otherwise with
    the type of the nearest node above it that has one, the root included.
    It is the flattening that looks the type of each node up in the chain of
    the nodes above it, so that the type of a node depends on the node and on
    the nodes above it only.  When no node of the chain has a type the
    conversion is given [parentType], the type that comes from above the
    tree. *)
Theorem type_inherited_downward (obj : json) (parentKey : string)
    (parentType : json) :
  declares_truthy obj = None ->
  flattenTokens obj parentKey parentType
  = flatten_nodes declares_truthy parentType obj parentKey [obj].
Proof.
  intros Hroot. rewrite flatten_nodes_flattenTokens. simpl.
  by rewrite Hroot.
Qed.

End Flattening.

(** ** Reference resolution *)

Section ReferenceResolution.

Context `{JsNumber}.

(** Text without an opening brace is copied. *)
Lemma replace_references_text (text after : string) :
  occurs "{" text = false ->
  replace_references (text +:+ after) = text +:+ replace_references after.
Proof.
  induction text as [|c text IH]; intros Hplain; [done |].
  simpl in Hplain. apply orb_false_elim in Hplain as [Hc Htext].
  rewrite !string_app_cons. simpl. rewrite Hc. by rewrite IH.
Qed.

(** After an opening brace, a path without a closing brace that is followed
    by one is captured whole. *)
Lemma match_reference_found (found : string -> string -> string)
    (no_match : string) (path : string) :
  forall ref after : string,
    occurs "}" path = false ->
    ref +:+ path <> EmptyString ->
    match_reference found no_match ref (path +:+ "}" +:+ after)
    = found (ref +:+ path) after.
Proof.
  induction path as [|c path IH]; intros ref after Hpath Hne.
  - rewrite string_app_nil_r in *. rewrite string_app_nil_l.
    rewrite string_app_cons. simpl. by destruct ref.
  - simpl in Hpath. apply orb_false_elim in Hpath as [Hc Hpath].
    rewrite string_app_cons. simpl. rewrite Hc.
    rewrite IH; [| done |].
    + by rewrite string_app_assoc.
    + by rewrite string_app_assoc.
Qed.

Lemma replace_references_reference (path after : string) :
  path <> EmptyString ->
  occurs "}" path = false ->
  replace_references ("{" +:+ path +:+ "}" +:+ after)
  = var_reference path +:+ replace_references after.
Proof.
  intros Hne Hpath. rewrite string_app_cons, string_app_nil_l. simpl.
  by rewrite match_reference_found.
Qed.

Lemma pieces_not_empty (path : string) : pieces path <> [].
Proof.
  destruct path as [|c path]; [done |]. simpl.
  destruct (Ascii.eqb c "."); [done |]. by destruct (pieces path).
Qed.

(** Replacing the dots of a path by dashes joins its pieces by dashes. *)
Lemma dots_to_dashes_dashed (path : string) :
  dots_to_dashes path = dashed path.
Proof.
  unfold dashed. induction path as [|c path IH]; [done |].
  simpl. rewrite IH. pose proof (pieces_not_empty path) as Hne.
  destruct (Ascii.eqb c ".").
  - by destruct (pieces path).
  - destruct (pieces path) as [|piece others]; [done |].
    by destruct others.
Qed.

Lemma var_reference_dashed (path : string) :
  var_reference path = "var(--atom-" +:+ dashed path +:+ ")".
Proof. unfold var_reference, PREFIX. by rewrite dots_to_dashes_dashed. Qed.

Lemma occurs_dots_to_dashes (c : ascii) (path : string) :
  c <> "-"%char -> occurs c path = false ->
  occurs c (dots_to_dashes path) = false.
Proof.
  intros Hc. induction path as [|c' path IH]; intros Hpath; [done |].
  simpl in *. apply orb_false_elim in Hpath as [Hc' Hpath].
  rewrite (IH Hpath), orb_false_r.
  destruct (Ascii.eqb_spec c' "."); [| done].
  by apply Ascii.eqb_neq.
Qed.

Lemma brace_free_app (s1 s2 : string) :
  brace_free (s1 +:+ s2) = brace_free s1 && brace_free s2.
Proof.
  unfold brace_free. rewrite !occurs_app.
  by destruct (occurs "{" s1), (occurs "}" s1), (occurs "{" s2),
    (occurs "}" s2).
Qed.

Lemma brace_free_dashed (path : string) :
  brace_free path = true -> brace_free (dashed path) = true.
Proof.
  rewrite <- dots_to_dashes_dashed.
  unfold brace_free. intros [Hl Hr]%andb_prop.
  apply negb_true_iff in Hl, Hr.
  by rewrite !occurs_dots_to_dashes.
Qed.

(** C3, as amended: a string made of text without braces and of references
    [{path}] to non-empty paths without braces is resolved to the same text
    with every reference rewritten, each on its own, to [var(--atom-<path>)]
    with the pieces of the path between its dots joined by dashes; no brace
    is left in the result. *)
Theorem references_resolved (segs : list segment) :
  forallb well_formed segs = true ->
  resolveReferences (JStr (written segs)) = JStr (rewritten segs)
  /\ brace_free (rewritten segs) = true.
Proof.
  intros Hwf. simpl.
  enough (replace_references (written segs) = rewritten segs
          /\ brace_free (rewritten segs) = true) as [-> ?] by done.
  induction segs as [|seg segs IH]; [done |].
  simpl in Hwf. apply andb_prop in Hwf as [Hseg Hsegs].
  destruct (IH Hsegs) as [IHr IHb]. clear IH.
  destruct seg as [text|path]; cbn [written rewritten well_formed] in *.
  - apply andb_prop in Hseg as Hbraces. destruct Hbraces as [Hl _].
    apply negb_true_iff in Hl.
    rewrite replace_references_text, IHr by done.
    by rewrite brace_free_app, Hseg, IHb.
  - apply andb_prop in Hseg as [Hne Hfree].
    apply negb_true_iff, String.eqb_neq in Hne.
    apply andb_prop in Hfree as Hbraces. destruct Hbraces as [_ Hr].
    apply negb_true_iff in Hr.
    rewrite replace_references_reference, IHr, var_reference_dashed by done.
    split; [by rewrite <- !string_app_assoc |].
    rewrite !brace_free_app, (brace_free_dashed _ Hfree), IHb.
    done.
Qed.

End ReferenceResolution.

(** ** Module compiler *)

Section ModuleCompilerProperties.

Variable root : string.

Lemma parent_file_name (name : string) :
  occurs "/" name = false -> parent name = None.
Proof.
  induction name as [|c name IH]; intros Hname; [done |].
  simpl in Hname. apply orb_false_elim in Hname as [Hc Hname].
  simpl. by rewrite IH, Hc.
Qed.

Lemma parent_path_join (dir name : string) :
  occurs "/" name = false -> parent (path_join dir name) = Some dir.
Proof.
  intros Hname. unfold path_join.
  induction dir as [|c dir IH].
  - rewrite string_app_nil_l, string_app_cons, string_app_nil_l. simpl.
    by rewrite parent_file_name.
  - rewrite string_app_cons. simpl. by rewrite IH.
Qed.

Lemma dirname_path_join (dir name : string) :
  dir <> EmptyString -> occurs "/" name = false ->
  dirname (path_join dir name) = dir.
Proof.
  intros Hdir Hname. unfold dirname. rewrite parent_path_join by done.
  by destruct dir.
Qed.

Lemma dirname_allTokensPath :
  dirname (allTokensPath root) = path_join (DIST root) "tokens".
Proof.
  unfold allTokensPath. apply dirname_path_join; [| done].
  unfold path_join, DIST. by destruct root.
Qed.

(** C8: an entry of the manifest whose source file does not exist when the
    loop reaches it is skipped.  The step ends without an exception and only
    counts the entry as skipped and prints a notice: the file system is left
    as it is, so that neither an output file nor an output directory is
    created, the count of built modules is unchanged, the outcome does not
    depend on the external compiler, which is not run, and the loop goes on
    with the entries that follow. *)
Theorem missing_source_skipped
    (sass : filesystem -> string -> string -> filesystem * option string)
    (st : build_state) (mod_ : module) (rest : list module) :
  existsSync (fs st) (path_join (SRC root) (entry mod_)) = false ->
  exists st' : build_state,
    build_module root sass st mod_ = Ok st'
    /\ fs st' = fs st
    /\ built st' = built st
    /\ skipped st' = S (skipped st)
    /\ (forall sass', build_module root sass' st mod_ = Ok st')
    /\ build_modules root sass (mod_ :: rest) st
       = build_modules root sass rest st'.
Proof.
  intros Hmissing.
  assert (Hstep : forall sass',
    build_module root sass' st mod_
    = Ok {| fs := fs st; built := built st; skipped := S (skipped st);
            console := console st
                       ++ ["  SKIP: " +:+ entry mod_ +:+ " (not found)"] |}).
  { intros sass'. unfold build_module. by rewrite Hmissing. }
  eexists. split; [apply Hstep |].
  repeat split; [apply Hstep |].
  simpl. by rewrite Hstep.
Qed.

Lemma tokens_paths :
  primPath root = root +:+ "/dist/tokens/primitives.css"
  /\ semPath root = root +:+ "/dist/tokens/semantic.css"
  /\ allTokensPath root = root +:+ "/dist/tokens/all-tokens.css"
  /\ path_join (DIST root) "tokens" = root +:+ "/dist/tokens".
Proof.
  unfold primPath, semPath, allTokensPath, DIST, path_join.
  by rewrite !string_app_assoc.
Qed.

(** C9: when [dist/tokens/primitives.css] and [dist/tokens/semantic.css]
    exist after the loop, [dist/tokens/all-tokens.css] is written with the
    text of the first, one line feed and the text of the second, and nothing
    else changes in the file system.  The two are regular files, with the
    texts [prim] and [sem], their directory is in the file system, and no
    directory has the name of the combined file.  When one of the two does
    not exist, neither as a file nor as a directory, nothing is written. *)
Theorem combined_token_file (st : build_state) :
  (forall prim sem : string,
      files (fs st) !! (root +:+ "/dist/tokens/primitives.css") = Some prim ->
      files (fs st) !! (root +:+ "/dist/tokens/semantic.css") = Some sem ->
      root +:+ "/dist/tokens" ∈ dirs (fs st) ->
      root +:+ "/dist/tokens/all-tokens.css" ∉ dirs (fs st) ->
      exists st' : build_state,
        combine_tokens root st = Ok st'
        /\ files (fs st')
           = <[root +:+ "/dist/tokens/all-tokens.css" :=
                 prim +:+ String "010"%char sem]> (files (fs st))
        /\ dirs (fs st') = dirs (fs st)
        /\ built st' = built st /\ skipped st' = skipped st)
  /\ (forall missing : string,
         missing = root +:+ "/dist/tokens/primitives.css"
         \/ missing = root +:+ "/dist/tokens/semantic.css" ->
         files (fs st) !! missing = None ->
         missing ∉ dirs (fs st) ->
         combine_tokens root st = Ok st).
Proof.
  destruct tokens_paths as (Hp & Hs & Ha & Hd).
  split.
  - intros prim sem Hprim Hsem Hdir Hfree.
    unfold combine_tokens, existsSync, readFileSync, writeFileSync.
    rewrite dirname_allTokensPath, Hp, Hs, Ha, Hd, Hprim, Hsem.
    rewrite !(bool_decide_eq_true_2 (is_Some (Some _))) by eauto.
    rewrite (bool_decide_eq_false_2 _ Hfree), (bool_decide_eq_true_2 _ Hdir).
    simpl. eauto 10.
  - intros missing Hmissing Hfile Hdir.
    assert (Hexists : existsSync (fs st) missing = false).
    { unfold existsSync. rewrite Hfile.
      rewrite (bool_decide_eq_false_2 (is_Some None))
        by (by intros [? ?]).
      by rewrite (bool_decide_eq_false_2 _ Hdir). }
    unfold combine_tokens. rewrite Hp, Hs.
    destruct Hmissing as [-> | ->]; rewrite Hexists;
      by rewrite ?andb_false_r.
Qed.

End ModuleCompilerProperties.

(** ** The properties at sample inputs *)

(** C1 at the object with the value [8] and the empty string as unit:
    [valueToCss] takes it for a dimension, as it has both properties, and
    [dimensionToCss], which wants a truthy unit, does not write the string of
    the value followed by the unit, [8]. *)
Theorem dimension_empty_unit :
  valueToCss (JObj [("value", int 8); ("unit", JStr EmptyString)])
    (JStr "dimension")
  = Ok (Some "[object Object]")
  /\ (value ← to_string (int 8); unit ← to_string (JStr EmptyString);
      Ok (Some (value +:+ unit)))
     = Ok (Some "8").
Proof. split; reflexivity. Qed.

Lemma dimension_value_unit_px :
  valueToCss (JObj [("value", int 8); ("unit", JStr "px")])
    (JStr "dimension")
  = Ok (Some "8px").
Proof.
  apply (proj2 (dimension_value_unit
                  [("value", int 8); ("unit", JStr "px")] (JStr "dimension")
                  (int 8) (JStr "px") eq_refl eq_refl eq_refl)).
Defined.

Lemma cubic_bezier_two_elements :
  valueToCss (JArr [int 1; int 2]) (JStr "cubicBezier")
  = Ok (Some "1,2").
Proof.
  apply (proj1 (proj2 cubic_bezier_array) [int 1; int 2]). simpl. lia.
Defined.

Lemma shadow_typed_dimension :
  valueToCss
    (JObj [("value", int 4); ("unit", JStr "px"); ("offsetX", JStr "1px")])
    (JStr "shadow")
  = Ok (Some "4px").
Proof.
  apply (shape_before_type
           [("value", int 4); ("unit", JStr "px"); ("offsetX", JStr "1px")]
           (JStr "shadow") (int 4) (JStr "px")); reflexivity.
Defined.

(** The scenario of the semantic colours. *)
Lemma reference_color_zinc_900 :
  resolveReferences (JStr "{color.zinc.900}")
  = JStr "var(--atom-color-zinc-900)"
  /\ brace_free "var(--atom-color-zinc-900)" = true.
Proof.
  apply (references_resolved [Reference "color.zinc.900"]). reflexivity.
Defined.

(** Against C3 as it is stated: in [{{a.b}] the reference [{a.b}] follows
    an opening brace.  The reference is not rewritten on its own to
    [var(--atom-a-b)]: the match starts at the first brace and takes the
    second one into the name, and a brace remains in the result. *)
Lemma stray_brace_swallows_reference :
  written [Text "{"; Reference "a.b"] = "{{a.b}"
  /\ rewritten [Text "{"; Reference "a.b"] = "{var(--atom-a-b)"
  /\ resolveReferences (JStr "{{a.b}") = JStr "var(--atom-{a-b)"
  /\ resolveReferences (JStr (written [Text "{"; Reference "a.b"]))
     <> JStr (rewritten [Text "{"; Reference "a.b"])
  /\ brace_free "var(--atom-{a-b)" = false.
Proof. repeat split; try reflexivity. discriminate. Qed.

(** Against C5 as it is stated: the curve [ease.out] declares the empty
    string as its type, and the flattening that
    takes every declaration as it is written converts its array like any
    other array; [flattenTokens] converts it as a [cubicBezier], the type of
    the group above. *)
Lemma empty_type_declaration_inherits :
  flattenTokens sample_curves EmptyString JNull
  = Ok {[ "ease-out" := "cubic-bezier(0, 0, 1, 1)" ]}
  /\ flatten_nodes declares_present JNull sample_curves EmptyString
       [sample_curves]
     = Ok {[ "ease-out" := "0,0,1,1" ]}
  /\ flattenTokens sample_curves EmptyString JNull
     <> flatten_nodes declares_present JNull sample_curves EmptyString
          [sample_curves].
Proof.
  assert (Hcode : flattenTokens sample_curves EmptyString JNull
                  = Ok {[ "ease-out" := "cubic-bezier(0, 0, 1, 1)" ]})
    by (vm_compute; reflexivity).
  assert (Hspec : flatten_nodes declares_present JNull sample_curves
                    EmptyString [sample_curves]
                  = Ok {[ "ease-out" := "0,0,1,1" ]})
    by (vm_compute; reflexivity).
  split; [exact Hcode |]. split; [exact Hspec |].
  rewrite Hcode, Hspec. intros Heq.
  apply (f_equal (fun r => m ← r; Ok (m !! "ease-out"))) in Heq.
  vm_compute in Heq. discriminate Heq.
Qed.

(** The types of the curves at work: the group [ease] has no type above it
    and its curve [out] takes the type of the group. *)
Lemma curve_type_inherited :
  flatten_nodes declares_truthy JNull sample_curves EmptyString
    [sample_curves]
  = Ok {[ "ease-out" := "cubic-bezier(0, 0, 1, 1)" ]}.
Proof.
  rewrite <- (type_inherited_downward sample_curves EmptyString JNull
                eq_refl).
  vm_compute. reflexivity.
Defined.

(** The type declared by the root object of a token file is not read: the
    flattening starts with the type it is given. *)
Lemma root_type_not_read :
  flattenTokens sample_root_type EmptyString JNull
  = Ok {[ "in" := "0,0,1,1" ]}.
Proof. vm_compute. reflexivity. Qed.

(** C6 at the legacy token [{ "a": { "value": null } }]: the node is taken
    for a group, and the loop over its entries reads a property of the
    [null] under [value]. *)
Theorem legacy_null_value_throws :
  flattenTokens sample_legacy_null EmptyString JNull = Throw TypeError.
Proof. reflexivity. Qed.

Lemma description_skipped :
  flattenTokens
    (JObj ([("a", JObj [("$value", JStr "1px")])]
           ++ ("$description", JObj [("b", JObj [("$value", JStr "x")])])
           :: [("c", JObj [("$value", int 2)])]))
    EmptyString JNull
  = flattenTokens
      (JObj ([("a", JObj [("$value", JStr "1px")])]
             ++ [("c", JObj [("$value", int 2)])]))
      EmptyString JNull.
Proof. apply metadata_key_skipped. reflexivity. Defined.

Lemma bare_string_dropped :
  flattenTokens
    (JObj ([("a", JObj [("$value", JStr "1px")])]
           ++ ("version", JStr "1.0.0")
           :: [("c", JObj [("$value", int 2)])]))
    EmptyString JNull
  = flattenTokens
      (JObj ([("a", JObj [("$value", JStr "1px")])]
             ++ [("c", JObj [("$value", int 2)])]))
      EmptyString JNull.
Proof. apply bare_value_dropped. reflexivity. Defined.

Lemma missing_primitive_source_skipped :
  existsSync (fs sample_state)
    (path_join (SRC "/repo") "tokens/_primitive.scss") = false
  /\ exists st' : build_state,
       build_module "/repo" sample_sass sample_state
         {| entry := "tokens/_primitive.scss";
            output := "tokens/primitives.css" |} = Ok st'
       /\ fs st' = fs sample_state
       /\ built st' = built sample_state
       /\ skipped st' = S (skipped sample_state)
       /\ (forall sass',
              build_module "/repo" sass' sample_state
                {| entry := "tokens/_primitive.scss";
                   output := "tokens/primitives.css" |} = Ok st')
       /\ build_modules "/repo" sample_sass
            ({| entry := "tokens/_primitive.scss";
                output := "tokens/primitives.css" |} :: []) sample_state
          = build_modules "/repo" sample_sass [] st'.
Proof.
  split; [vm_compute; reflexivity |].
  apply (missing_source_skipped "/repo" sample_sass sample_state
           {| entry := "tokens/_primitive.scss";
              output := "tokens/primitives.css" |} []).
  vm_compute. reflexivity.
Defined.

Lemma sample_tokens_combined :
  (exists st' : build_state,
      combine_tokens "/repo" sample_state = Ok st'
      /\ files (fs st')
         = <["/repo/dist/tokens/all-tokens.css" :=
               ":root { --a: 1; }" +:+ String "010"%char ":root { --b: 2; }"]>
             (files (fs sample_state))
      /\ dirs (fs st') = dirs (fs sample_state)
      /\ built st' = built sample_state
      /\ skipped st' = skipped sample_state)
  /\ combine_tokens "/repo"
       {| fs := {| files := {[ "/repo/dist/tokens/primitives.css"
                               := ":root { --a: 1; }" ]};
                   dirs := {[ "/repo"; "/repo/dist"; "/repo/dist/tokens" ]} |};
          built := 1; skipped := 22; console := [] |}
     = Ok {| fs := {| files := {[ "/repo/dist/tokens/primitives.css"
                                  := ":root { --a: 1; }" ]};
                      dirs := {[ "/repo"; "/repo/dist";
                                 "/repo/dist/tokens" ]} |};
             built := 1; skipped := 22; console := [] |}.
Proof.
  split.
  - apply (proj1 (combined_token_file "/repo" sample_state)).
    + vm_compute. reflexivity.
    + vm_compute. reflexivity.
    + apply (bool_decide_unpack _). vm_compute. exact I.
    + apply (bool_decide_unpack _). vm_compute. exact I.
  - apply (proj2 (combined_token_file "/repo" _)
             "/repo/dist/tokens/semantic.css").
    + by right.
    + vm_compute. reflexivity.
    + apply (bool_decide_unpack _). vm_compute. exact I.
Defined.

(** * Further properties *)

(** ** Value conversion *)

Section ValueConversionFurther.

Context `{JsNumber}.

Lemma assoc_printable (k : string) (l : list (string * json)) (v : json) :
  forallb (fun kv => match kv with (_, x) => printable x end) l = true ->
  assoc k l = Some v -> printable v = true.
Proof.
  induction l as [|[k' x] l IH]; [discriminate |].
  simpl. intros [Hx Hl]%andb_prop.
  destruct (String.eqb k k'); [by intros [= <-] | by apply IH].
Qed.

Lemma prop_printable (v : json) (k : string) (x : json) :
  printable v = true -> prop v k = Some x -> printable x = true.
Proof.
  destruct v; try discriminate. simpl. intros [_ Hl]%andb_prop.
  by apply assoc_printable.
Qed.

Lemma to_string_opt_printable (v : json) (k : string) :
  printable v = true -> exists s, to_string_opt (prop v k) = Ok s.
Proof.
  intros Hv. destruct (prop v k) as [x|] eqn:Hx; [| by eexists].
  apply to_string_printable. by apply (prop_printable v k).
Qed.

Lemma to_string_opt_TypeError (v : jsval) (e : exn) :
  to_string_opt v = Throw e -> e = TypeError.
Proof. destruct v; [apply to_string_TypeError | discriminate]. Qed.

Lemma dimensionToCss_printable (dim : jsval) :
  (forall d, dim = Some d -> printable d = true) ->
  exists css, dimensionToCss dim = Ok css.
Proof.
  destruct dim as [d|]; [| by eexists]. intros Hd.
  specialize (Hd d eq_refl). unfold dimensionToCss.
  destruct (to_string_printable d Hd) as [s Hs].
  destruct (String.eqb (typeof d) "string"); [by eexists |].
  destruct (_ && _ && _ && _); [| by eexists].
  destruct (to_string_opt_printable d "value" Hd) as [value ->].
  destruct (to_string_opt_printable d "unit" Hd) as [unit ->].
  by eexists.
Qed.

Lemma dimensionToCss_TypeError (dim : jsval) (e : exn) :
  dimensionToCss dim = Throw e -> e = TypeError.
Proof.
  destruct dim as [d|]; [| discriminate]. unfold dimensionToCss.
  destruct (String.eqb (typeof d) "string"); [apply to_string_TypeError |].
  destruct (_ && _ && _ && _); [| apply to_string_TypeError].
  destruct (to_string_opt (prop d "value")) as [value|e'] eqn:Hvalue; simpl.
  - destruct (to_string_opt (prop d "unit")) as [unit|e'] eqn:Hunit; simpl;
      [discriminate |].
    intros [= <-]. by apply to_string_opt_TypeError in Hunit.
  - intros [= <-]. by apply to_string_opt_TypeError in Hvalue.
Qed.

Lemma get_prop (v : json) (k : string) :
  v <> JNull -> get v k = Ok (prop v k).
Proof. by destruct v. Qed.

(** A single shadow that holds nothing that throws is converted without an
    exception. *)
Lemma singleShadowToCss_printable (s : json) :
  printable s = true -> exists css, singleShadowToCss s = Ok css.
Proof.
  intros Hs. unfold singleShadowToCss.
  assert (Hnull : s <> JNull) by (by intros ->).
  rewrite !get_prop by done. simpl.
  destruct (dimensionToCss_printable (prop s "offsetX")) as [ox ->];
    [intros d; by apply prop_printable |].
  destruct (dimensionToCss_printable (prop s "offsetY")) as [oy ->];
    [intros d; by apply prop_printable |].
  destruct (dimensionToCss_printable (prop s "blur")) as [bl ->];
    [intros d; by apply prop_printable |].
  destruct (dimensionToCss_printable (prop s "spread")) as [sp ->];
    [intros d; by apply prop_printable |].
  destruct (to_string_opt_printable s "color" Hs) as [color ->].
  by eexists.
Qed.

Lemma singleShadowToCss_TypeError (s : json) (e : exn) :
  singleShadowToCss s = Throw e -> e = TypeError.
Proof.
  assert (Hs : s = JNull \/ s <> JNull) by (destruct s; auto).
  destruct Hs as [-> | Hnull]; [by intros [= <-] |].
  unfold singleShadowToCss. rewrite !get_prop by done. simpl.
  destruct (dimensionToCss (prop s "offsetX")) as [ox|e'] eqn:Hox; simpl;
    [| intros [= <-]; by apply dimensionToCss_TypeError in Hox].
  destruct (dimensionToCss (prop s "offsetY")) as [oy|e'] eqn:Hoy; simpl;
    [| intros [= <-]; by apply dimensionToCss_TypeError in Hoy].
  destruct (dimensionToCss (prop s "blur")) as [bl|e'] eqn:Hbl; simpl;
    [| intros [= <-]; by apply dimensionToCss_TypeError in Hbl].
  destruct (dimensionToCss (prop s "spread")) as [sp|e'] eqn:Hsp; simpl;
    [| intros [= <-]; by apply dimensionToCss_TypeError in Hsp].
  destruct (to_string_opt (prop s "color")) as [color|e'] eqn:Hcolor; simpl;
    [discriminate |].
  intros [= <-]. by apply to_string_opt_TypeError in Hcolor.
Qed.

Lemma mapM_singleShadowToCss_printable (l : list json) :
  forallb printable l = true ->
  exists shadows, mapM singleShadowToCss l = Ok shadows.
Proof.
  induction l as [|s l IH]; simpl; [by eexists |].
  intros [Hs Hl]%andb_prop.
  destruct (singleShadowToCss_printable s Hs) as [css ->].
  destruct (IH Hl) as [shadows ->]. by eexists.
Qed.

Lemma mapM_singleShadowToCss_TypeError (l : list json) (e : exn) :
  mapM singleShadowToCss l = Throw e -> e = TypeError.
Proof.
  induction l as [|s l IH]; simpl; [discriminate |].
  destruct (singleShadowToCss s) as [css|e'] eqn:Hs; simpl.
  - destruct (mapM singleShadowToCss l) as [rest|e'']; simpl;
      [discriminate |].
    intros [= <-]. by apply IH.
  - intros [= <-]. by apply singleShadowToCss_TypeError in Hs.
Qed.

(** The shadows of an array that holds a [null] are not converted. *)
Lemma mapM_singleShadowToCss_null (l : list json) :
  JNull ∈ l -> mapM singleShadowToCss l = Throw TypeError.
Proof.
  intros Hin.
  destruct (mapM singleShadowToCss l) as [shadows|e] eqn:Hl;
    [| by apply mapM_singleShadowToCss_TypeError in Hl as ->].
  exfalso. revert shadows Hl.
  induction l as [|s l IH]; intros shadows; [by apply elem_of_nil in Hin |].
  simpl. apply elem_of_cons in Hin as [<- | Hin]; [discriminate |].
  destruct (singleShadowToCss s); simpl; [| discriminate].
  destruct (mapM singleShadowToCss l) as [rest|e]; simpl; [| discriminate].
  intros _. by apply (IH Hin rest).
Qed.

(** [valueToCss] throws nothing but a [TypeError]. *)
Lemma valueToCss_TypeError (val type : json) (e : exn) :
  valueToCss val type = Throw e -> e = TypeError.
Proof.
  destruct val as [| | | |l|l]; unfold valueToCss; try discriminate.
  - destruct (is_string type "cubicBezier").
    + unfold cubicBezierToCss, join. destruct (length l =? 4).
      * destruct (strings _ l) as [elements|e'] eqn:Hl; simpl;
          [discriminate |].
        intros [= <-].
        assert (Harr : to_string (JArr l) = Throw e')
          by (simpl; by rewrite Hl).
        by apply to_string_TypeError in Harr.
      * destruct (to_string (JArr l)) as [css|e'] eqn:Hl; simpl;
          [discriminate |].
        intros [= <-]. by apply to_string_TypeError in Hl.
    + destruct (is_string type "shadow").
      * unfold shadowToCss.
        destruct (mapM singleShadowToCss l) as [shadows|e'] eqn:Hl; simpl;
          [discriminate |].
        intros [= <-]. by apply mapM_singleShadowToCss_TypeError in Hl.
      * destruct (to_string (JArr l)) as [css|e'] eqn:Hl; simpl;
          [discriminate |].
        intros [= <-]. by apply to_string_TypeError in Hl.
  - destruct (_ && _).
    + destruct (dimensionToCss _) as [css|e'] eqn:Hl; simpl;
        [discriminate |].
      intros [= <-]. by apply dimensionToCss_TypeError in Hl.
    + destruct (defined _); [| discriminate].
      destruct (singleShadowToCss _) as [css|e'] eqn:Hl; simpl;
        [discriminate |].
      intros [= <-]. by apply singleShadowToCss_TypeError in Hl.
Qed.

(** A value that holds nothing that throws is converted without an
    exception. *)
Lemma valueToCss_printable (val type : json) :
  printable val = true -> exists css, valueToCss val type = Ok (Some css).
Proof.
  intros Hval.
  destruct val as [| | | |l|l]; unfold valueToCss; try discriminate Hval;
    try (by eexists).
  - destruct (to_string_printable _ Hval) as [s Hs].
    destruct (is_string type "cubicBezier").
    + unfold cubicBezierToCss, join. destruct (length l =? 4).
      * simpl in Hs.
        destruct (strings _ l) as [elements|e']; [| discriminate Hs].
        by eexists.
      * rewrite Hs. by eexists.
    + destruct (is_string type "shadow"); [| rewrite Hs; by eexists].
      unfold shadowToCss.
      destruct (mapM_singleShadowToCss_printable l Hval) as [shadows ->].
      by eexists.
  - destruct (_ && _).
    + destruct (dimensionToCss_printable (Some (JObj l))) as [css ->];
        [by intros d [= <-] | by eexists].
    + destruct (defined _); [| by eexists].
      destruct (singleShadowToCss_printable _ Hval) as [css ->].
      by eexists.
Qed.

(** The strings of a list are not made when one of its elements throws. *)
Lemma strings_elem_throws {A : Type} (f : A -> res string) (l : list A)
    (x : A) :
  x ∈ l -> f x = Throw TypeError ->
  Forall (fun y => forall e, f y = Throw e -> e = TypeError) l ->
  strings f l = Throw TypeError.
Proof.
  intros Hin Hx Hl.
  destruct (strings f l) as [elements|e] eqn:Hstrings;
    [| by apply (strings_throws f l e Hl) in Hstrings as ->].
  exfalso. clear Hl. revert elements Hstrings.
  induction l as [|y l IH]; intros elements; [by apply elem_of_nil in Hin |].
  simpl. apply elem_of_cons in Hin as [<- | Hin];
    [by rewrite Hx |].
  destruct (f y); simpl; [| discriminate].
  destruct (strings f l) as [rest|e]; simpl; [| discriminate].
  intros _. by apply (IH Hin rest).
Qed.

(** X2: [valueToCss] throws nothing but a [TypeError], and only for a value
    that holds a [null] or an object with a property [toString].  It does
    throw for an array that holds a [null] and is converted under the type
    [shadow], and for an array that holds an object with a property
    [toString] and is converted under a type other than [cubicBezier] and
    [shadow]. *)
Theorem valueToCss_throws (val type : json) (e : exn) :
  (valueToCss val type = Throw e -> e = TypeError /\ printable val = false)
  /\ (forall l : list json,
         is_string type "shadow" = true -> JNull ∈ l ->
         valueToCss (JArr l) type = Throw TypeError)
  /\ (forall (l : list json) (props : list (string * json)),
         is_string type "cubicBezier" = false ->
         is_string type "shadow" = false ->
         JObj props ∈ l -> defined (assoc "toString" props) = true ->
         valueToCss (JArr l) type = Throw TypeError).
Proof.
  split; [| split].
  - intros Hthrow. split; [by apply valueToCss_TypeError in Hthrow |].
    destruct (printable val) eqn:Hval; [| done].
    destruct (valueToCss_printable val type Hval) as [css Hcss].
    rewrite Hcss in Hthrow. discriminate Hthrow.
  - intros l Htype Hin. unfold valueToCss, shadowToCss.
    destruct type as [| | |s| |]; try discriminate Htype.
    simpl in Htype. apply String.eqb_eq in Htype as ->. simpl.
    by rewrite mapM_singleShadowToCss_null.
  - intros l props Hcurve Hshadow Hin Hown. unfold valueToCss.
    rewrite Hcurve, Hshadow. simpl.
    rewrite (strings_elem_throws _ l (JObj props)); [done | done | |].
    + simpl. by destruct (assoc "toString" props).
    + apply Forall_forall. intros x _ e'.
      destruct x; try discriminate; apply to_string_TypeError.
Qed.

(** X3: the type matters for arrays only: every other value is converted in
    the same way under any two types. *)
Theorem valueToCss_type_for_arrays_only (val type1 type2 : json) :
  (forall l : list json, val <> JArr l) ->
  valueToCss val type1 = valueToCss val type2.
Proof. intros Hval. destruct val; try done. by destruct (Hval l). Qed.

(** X4: under the type [shadow] an array of one shadow object is converted
    like the shadow object alone. *)
Theorem shadow_array_of_one (l : list (string * json)) (type : json) :
  defined (assoc "offsetX" l) = true ->
  defined (assoc "value" l) && defined (assoc "unit" l) = false ->
  valueToCss (JArr [JObj l]) (JStr "shadow") = valueToCss (JObj l) type.
Proof.
  intros Hoffset Hdim. unfold valueToCss, shadowToCss. simpl prop.
  rewrite Hdim, Hoffset. simpl.
  by destruct (singleShadowToCss (JObj l)) as [css|e].
Qed.

End ValueConversionFurther.

(** ** Token flattening *)

Section FlatteningFurther.

Context `{JsNumber}.

Implicit Types (body : gmap string string -> string -> json
                       -> res (gmap string string)).

(** *** Exceptions *)

Lemma extractValue_throws (token : json) (e : exn) :
  extractValue token = Throw e <-> token = JNull /\ e = TypeError.
Proof.
  split.
  - destruct token as [| | | | |l]; try discriminate; [by intros [= <-] |].
    unfold extractValue. simpl.
    destruct (assoc "$value" l); [discriminate |]. simpl.
    by destruct (assoc "value" l).
  - by intros [-> ->].
Qed.

Lemma for_entries_throws body (es : list (string * json))
    (result : gmap string string) (e : exn) :
  Forall (fun kv => forall r e', body r (fst kv) (snd kv) = Throw e'
                                 -> e' = TypeError) es ->
  for_entries body es result = Throw e -> e = TypeError.
Proof.
  intros Hes. revert result.
  induction Hes as [|[k v] es Hkv _ IH]; intros result; [discriminate |].
  simpl in *. destruct (body result k v) as [result'|e'] eqn:Hbody; simpl.
  - apply IH.
  - intros [= <-]. by apply (Hkv result).
Qed.

Lemma for_elements_throws body (i : nat) (es : list json)
    (result : gmap string string) (e : exn) :
  Forall (fun v => forall r k e', body r k v = Throw e' -> e' = TypeError)
    es ->
  for_elements body i es result = Throw e -> e = TypeError.
Proof.
  intros Hes. revert i result.
  induction Hes as [|v es Hv _ IH]; intros i result; [discriminate |].
  simpl. destruct (body result (pretty i) v) as [result'|e'] eqn:Hbody;
    simpl.
  - apply IH.
  - intros [= <-]. by apply (Hv result (pretty i)).
Qed.

Lemma visit_throws
    (flatten : json -> string -> json -> res (gmap string string))
    (parentKey : string) (parentType : json) (result : gmap string string)
    (key : string) (value : json) (e : exn) :
  (forall pk pt e', flatten value pk pt = Throw e' -> e' = TypeError) ->
  visit flatten parentKey parentType result key value = Throw e ->
  e = TypeError.
Proof.
  intros Hflatten. unfold visit.
  destruct (is_metadata key); [discriminate |].
  destruct (String.eqb (typeof value) "object").
  - destruct (extractValue value) as [tokenValue|e'] eqn:Hextract; simpl.
    + destruct (is_null tokenValue); simpl.
      * destruct (truthy value); simpl; [| discriminate].
        destruct (flatten _ _ _) as [sub|e'] eqn:Hsub; simpl;
          [discriminate |].
        intros [= <-]. by apply Hflatten in Hsub.
      * destruct (valueToCss _ _) as [[css|]|e'] eqn:Hcss; simpl;
          try discriminate.
        intros [= <-]. by apply valueToCss_TypeError in Hcss.
    + intros [= <-]. by apply extractValue_throws in Hextract as [_ ?].
  - simpl. by rewrite andb_false_r.
Qed.

(** The only exception of the flattening is a [TypeError]. *)
Lemma flattenTokens_TypeError (obj : json) :
  forall (parentKey : string) (parentType : json) (e : exn),
    flattenTokens obj parentKey parentType = Throw e -> e = TypeError.
Proof.
  induction obj as [| | | |l IH|l IH] using json_ind;
    intros parentKey parentType e; try discriminate; simpl.
  - by intros [= <-].
  - apply for_elements_throws. eapply Forall_impl; [exact IH |].
    intros value IHv r k e'. by apply visit_throws.
  - apply for_entries_throws. eapply Forall_impl; [exact IH |].
    intros [k value] IHv r e'. by apply visit_throws.
Qed.

(** X5: a [null] under a key that does not begin with [$] makes the flattening
    of the object throw a [TypeError], wherever the entry stands and whatever
    the other entries are. *)
Theorem null_entry_throws (before after : list (string * json))
    (key : string) (parentKey : string) (parentType : json) :
  is_metadata key = false ->
  flattenTokens (JObj (before ++ (key, JNull) :: after)) parentKey parentType
  = Throw TypeError.
Proof.
  intros Hkey. simpl. rewrite for_entries_app.
  destruct (for_entries _ before ∅) as [result|e] eqn:Hbefore; simpl.
  - unfold visit. by rewrite Hkey.
  - f_equal. eapply for_entries_throws; [| exact Hbefore].
    apply Forall_forall. intros [k v] _ r e'. apply visit_throws.
    apply flattenTokens_TypeError.
Qed.

Lemma for_entries_ok body (es : list (string * json))
    (result : gmap string string) :
  Forall (fun kv => forall r, exists r', body r (fst kv) (snd kv) = Ok r')
    es ->
  exists result', for_entries body es result = Ok result'.
Proof.
  intros Hes. revert result.
  induction Hes as [|[k v] es Hkv _ IH]; intros result; [by eexists |].
  simpl in *. destruct (Hkv result) as [r' ->]. simpl. apply IH.
Qed.

Lemma for_elements_ok body (i : nat) (es : list json)
    (result : gmap string string) :
  Forall (fun v => forall r k, exists r', body r k v = Ok r') es ->
  exists result', for_elements body i es result = Ok result'.
Proof.
  intros Hes. revert i result.
  induction Hes as [|v es Hv _ IH]; intros i result; [by eexists |].
  simpl. destruct (Hv result (pretty i)) as [r' ->]. simpl. apply IH.
Qed.

(** X6: a token tree that holds no [null] and no object with a property
    [toString] is flattened without an exception. *)
Theorem printable_flattened (obj : json) :
  printable obj = true ->
  forall (parentKey : string) (parentType : json),
    exists result : gmap string string,
      flattenTokens obj parentKey parentType = Ok result.
Proof.
  assert (Hvisit : forall value : json,
    (printable value = true ->
     forall pk pt, exists r, flattenTokens value pk pt = Ok r) ->
    printable value = true ->
    forall pk pt r k,
      exists r', visit flattenTokens pk pt r k value = Ok r').
  { intros value IH Hvalue pk pt r k. unfold visit.
    destruct (is_metadata k); [by eexists |].
    destruct (String.eqb (typeof value) "object") eqn:Hobject; simpl.
    - destruct (extractValue value) as [tokenValue|e] eqn:Hextract.
      + simpl. destruct (is_null tokenValue) eqn:Hnull; simpl.
        * destruct (truthy value); simpl; [| by eexists].
          destruct (IH Hvalue (child_key pk k) (local_type value pt))
            as [sub ->].
          by eexists.
        * assert (Htoken : printable tokenValue = true).
          { destruct value as [| | | |l|l]; try discriminate Hobject.
            - discriminate Hextract.
            - injection Hextract as <-. discriminate Hnull.
            - unfold extractValue in Hextract. simpl in Hextract, Hvalue.
              apply andb_prop in Hvalue as [_ Hvalue].
              destruct (assoc "$value" l) as [x|] eqn:Hdtcg; simpl in *.
              + injection Hextract as <-.
                by apply (assoc_printable _ _ _ Hvalue Hdtcg).
              + destruct (assoc "value" l) as [x|] eqn:Hlegacy; simpl in *.
                * injection Hextract as <-.
                  by apply (assoc_printable _ _ _ Hvalue Hlegacy).
                * injection Hextract as <-. discriminate Hnull. }
          destruct (valueToCss_printable tokenValue (local_type value pt)
                      Htoken) as [css ->]; simpl; by eexists.
      + apply extractValue_throws in Hextract as [-> _]. done.
    - rewrite andb_false_r. by eexists. }
  induction obj as [| | | |l IH|l IH] using json_ind;
    intros Hobj parentKey parentType; try discriminate Hobj;
    try (by eexists); simpl in *.
  - apply for_elements_ok. apply Forall_forall. intros value Hin r k.
    apply Hvisit.
    + by apply (proj1 (Forall_forall _ _) IH).
    + by apply (proj1 (forallb_forall _ _) Hobj), list_elem_of_In.
  - apply andb_prop in Hobj as [_ Hobj].
    apply for_entries_ok. apply Forall_forall. intros [k value] Hin r.
    apply Hvisit.
    + by apply (proj1 (Forall_forall _ _) IH (k, value)).
    + by apply (proj1 (forallb_forall _ _) Hobj (k, value)), list_elem_of_In.
Qed.

End FlatteningFurther.

Section FlatteningComposition.

Context `{JsNumber}.

Implicit Types (body : gmap string string -> string -> json
                       -> res (gmap string string)).

(** *** Composition *)

Lemma set_prop_union (key css : string) (result : gmap string string) :
  set_prop key css result = set_prop key css ∅ ∪ result.
Proof.
  unfold set_prop. destruct (String.eqb key "__proto__").
  - by rewrite (left_id_L ∅ (∪)).
  - by rewrite insert_empty, <- insert_union_singleton_l.
Qed.

(** What the loop body does to the result is to add to it what it adds to
    the empty object. *)
Lemma visit_accumulates
    (flatten : json -> string -> json -> res (gmap string string))
    (parentKey : string) (parentType : json) (result : gmap string string)
    (key : string) (value : json) :
  visit flatten parentKey parentType result key value
  = (added ← visit flatten parentKey parentType ∅ key value;
     Ok (added ∪ result)).
Proof.
  unfold visit. destruct (is_metadata key); simpl.
  { by rewrite (left_id_L ∅ (∪)). }
  destruct (if String.eqb (typeof value) "object" then extractValue value
            else Ok JNull) as [tokenValue|e]; simpl; [| done].
  destruct (is_null tokenValue); simpl.
  - destruct (truthy value && String.eqb (typeof value) "object"); simpl.
    + destruct (flatten _ _ _) as [sub|e]; simpl; [| done].
      by rewrite (right_id_L ∅ (∪)).
    + by rewrite (left_id_L ∅ (∪)).
  - destruct (valueToCss _ _) as [[css|]|e]; simpl; [| | done].
    + by rewrite set_prop_union.
    + by rewrite (left_id_L ∅ (∪)).
Qed.

Lemma for_entries_accumulates
    (flatten : json -> string -> json -> res (gmap string string))
    (parentKey : string) (parentType : json) (es : list (string * json))
    (result : gmap string string) :
  for_entries (visit flatten parentKey parentType) es result
  = (added ← for_entries (visit flatten parentKey parentType) es ∅;
     Ok (added ∪ result)).
Proof.
  revert result. induction es as [|[k v] es IH]; intros result; simpl.
  { by rewrite (left_id_L ∅ (∪)). }
  rewrite (visit_accumulates _ _ _ result).
  destruct (visit flatten parentKey parentType ∅ k v) as [added|e]; simpl;
    [| done].
  rewrite (IH (added ∪ result)), (IH added).
  destruct (for_entries _ es ∅) as [rest|e]; simpl; [| done].
  by rewrite (assoc_L (∪)).
Qed.

(** X7: the flattening of an object is put together from the flattenings of
    its parts: the entries of the second part are added to those of the first
    and replace those that have the same key.  An exception of the first part
    comes before one of the second. *)
Theorem flattenTokens_app (es1 es2 : list (string * json))
    (parentKey : string) (parentType : json) :
  flattenTokens (JObj (es1 ++ es2)) parentKey parentType
  = (first ← flattenTokens (JObj es1) parentKey parentType;
     second ← flattenTokens (JObj es2) parentKey parentType;
     Ok (second ∪ first)).
Proof.
  simpl. rewrite for_entries_app.
  destruct (for_entries _ es1 ∅) as [first|e]; simpl; [| done].
  by rewrite for_entries_accumulates.
Qed.

(** *** Keys *)

Lemma child_key_flattened (parentKey key : string) :
  is_metadata key = false ->
  child_key parentKey key <> "__proto__" ->
  flattened_key parentKey (child_key parentKey key).
Proof.
  intros Hkey Hproto. split; [done |]. unfold child_key.
  destruct (String.eqb_spec parentKey EmptyString) as [-> | Hne]; simpl.
  - split; [done | by intros _].
  - split; [by eexists |]. intros Hparent.
    destruct parentKey; [done | by rewrite string_app_cons].
Qed.

Lemma flattened_key_below (parentKey key key' : string) :
  is_metadata key = false ->
  flattened_key (child_key parentKey key) key' ->
  flattened_key parentKey key'.
Proof.
  intros Hkey (Hproto & Hprefix & Hmeta). split; [done |].
  unfold child_key in *.
  destruct (String.eqb_spec parentKey EmptyString) as [-> | Hne]; simpl in *.
  - split; [done |]. intros _. by apply Hmeta.
  - assert (Hchild : parentKey +:+ "-" +:+ key <> EmptyString)
      by (destruct parentKey; [done | by rewrite string_app_cons]).
    split.
    + intros _. destruct (Hprefix Hchild) as [rest ->].
      exists (key +:+ "-" +:+ rest). by rewrite !string_app_assoc.
    + intros Hparent. apply Hmeta.
      destruct parentKey; [done | by rewrite string_app_cons].
Qed.

Lemma for_entries_keys body (P : string -> Prop)
    (es : list (string * json)) (result result' : gmap string string) :
  Forall (fun kv => forall r r',
            body r (fst kv) (snd kv) = Ok r' ->
            (forall k, is_Some (r !! k) -> P k) ->
            forall k, is_Some (r' !! k) -> P k) es ->
  for_entries body es result = Ok result' ->
  (forall k, is_Some (result !! k) -> P k) ->
  forall k, is_Some (result' !! k) -> P k.
Proof.
  intros Hes. revert result.
  induction Hes as [|[k v] es Hkv _ IH]; intros result; simpl.
  - by intros [= <-].
  - destruct (body result k v) as [r|e] eqn:Hbody; simpl; [| discriminate].
    intros Hrest Hresult. eapply IH; [exact Hrest |].
    by apply (Hkv result r).
Qed.

Lemma for_elements_keys body (P : string -> Prop) (i : nat)
    (es : list json) (result result' : gmap string string) :
  Forall (fun v => forall r r' key,
            body r key v = Ok r' ->
            (forall k, is_Some (r !! k) -> P k) ->
            forall k, is_Some (r' !! k) -> P k) es ->
  for_elements body i es result = Ok result' ->
  (forall k, is_Some (result !! k) -> P k) ->
  forall k, is_Some (result' !! k) -> P k.
Proof.
  intros Hes. revert i result.
  induction Hes as [|v es Hv _ IH]; intros i result; simpl.
  - by intros [= <-].
  - destruct (body result (pretty i) v) as [r|e] eqn:Hbody; simpl;
      [| discriminate].
    intros Hrest Hresult. eapply IH; [exact Hrest |].
    by apply (Hv result r (pretty i)).
Qed.

Lemma visit_keys
    (flatten : json -> string -> json -> res (gmap string string))
    (parentKey : string) (parentType : json) (key : string) (value : json)
    (r r' : gmap string string) :
  (forall pk pt sub,
      flatten value pk pt = Ok sub ->
      forall k, is_Some (sub !! k) -> flattened_key pk k) ->
  visit flatten parentKey parentType r key value = Ok r' ->
  (forall k, is_Some (r !! k) -> flattened_key parentKey k) ->
  forall k, is_Some (r' !! k) -> flattened_key parentKey k.
Proof.
  intros Hflatten. unfold visit.
  destruct (is_metadata key) eqn:Hkey; [by intros [= <-] |].
  destruct (if String.eqb (typeof value) "object" then extractValue value
            else Ok JNull) as [tokenValue|e]; simpl; [| discriminate].
  destruct (is_null tokenValue); simpl.
  - destruct (truthy value && String.eqb (typeof value) "object"); simpl;
      [| by intros [= <-]].
    destruct (flatten _ _ _) as [sub|e] eqn:Hsub; simpl; [| discriminate].
    intros [= <-] Hr k [Hk | Hk]%lookup_union_is_Some; [| by apply Hr].
    apply (flattened_key_below _ key); [done |].
    by apply (Hflatten _ _ _ Hsub).
  - destruct (valueToCss _ _) as [[css|]|e]; simpl; [| | discriminate].
    + unfold set_prop.
      destruct (String.eqb_spec (child_key parentKey key) "__proto__")
        as [Hproto | Hproto]; [by intros [= <-] |].
      intros [= <-] Hr k Hk.
      destruct (decide (child_key parentKey key = k)) as [<- | Hne].
      * by apply child_key_flattened.
      * rewrite lookup_insert_ne in Hk by done. by apply Hr.
    + by intros [= <-].
Qed.

(** X8: every key of a flattening under a parent key that is not empty begins
    with the parent key and a dash; no key is [__proto__]; and no key begins
    with [$] unless the parent key does. *)
Theorem flattenTokens_keys (obj : json) :
  forall (parentKey : string) (parentType : json)
         (result : gmap string string),
    flattenTokens obj parentKey parentType = Ok result ->
    forall key : string,
      is_Some (result !! key) -> flattened_key parentKey key.
Proof.
  induction obj as [| | | |l IH|l IH] using json_ind;
    intros parentKey parentType result; simpl;
    try (intros [= <-] key [? Hkey]; by rewrite lookup_empty in Hkey);
    try discriminate.
  - intros Hloop.
    eapply (for_elements_keys _ (flattened_key parentKey)); [| exact Hloop |].
    + eapply Forall_impl; [exact IH |].
      intros value IHv r r' k. by apply visit_keys.
    + intros k [? Hk]. by rewrite lookup_empty in Hk.
  - intros Hloop.
    eapply (for_entries_keys _ (flattened_key parentKey)); [| exact Hloop |].
    + eapply Forall_impl; [exact IH |].
      intros [k value] IHv r r'. by apply visit_keys.
    + intros k [? Hk]. by rewrite lookup_empty in Hk.
Qed.

End FlatteningComposition.

Section FlatteningPaths.

Context `{JsNumber}.

Lemma metadata_key_neq (key name : string) :
  is_metadata key = false -> is_metadata name = true ->
  String.eqb name key = false.
Proof.
  intros Hkey Hname. apply String.eqb_neq. intros <-. congruence.
Qed.

Lemma child_key_nested (parentKey key rest : string) :
  key <> EmptyString ->
  child_key (child_key parentKey key) rest
  = child_key parentKey (key +:+ "-" +:+ rest).
Proof.
  intros Hkey. unfold child_key.
  destruct (String.eqb_spec parentKey EmptyString) as [-> | Hne]; simpl.
  - by destruct (String.eqb_spec key EmptyString).
  - destruct (String.eqb_spec (parentKey +:+ "-" +:+ key) EmptyString)
      as [Hempty | _]; simpl.
    + by destruct parentKey.
    + by rewrite !string_app_assoc.
Qed.

Lemma nested_token_flattened (path : list string) (tokenValue : json)
    (css : string) (parentType : json) :
  path <> [] ->
  forallb group_key path = true ->
  valueToCss tokenValue parentType = Ok (Some css) ->
  forall parentKey : string,
    flattenTokens (nested path (JObj [("$value", tokenValue)])) parentKey
      parentType
    = Ok (set_prop (child_key parentKey (String.concat "-" path)) css ∅).
Proof.
  intros Hpath Hkeys Hcss.
  assert (Hnull : is_null tokenValue = false)
    by (destruct tokenValue; try done; discriminate Hcss).
  induction path as [|key path IH]; [done |]. clear Hpath.
  simpl in Hkeys. apply andb_prop in Hkeys as [Hkey Hkeys].
  unfold group_key in Hkey.
  apply andb_prop in Hkey as [[Hne Hmeta]%andb_prop Hvalue].
  apply negb_true_iff in Hne, Hmeta, Hvalue.
  apply String.eqb_neq in Hne.
  intros parentKey. destruct path as [|key' path].
  - simpl. unfold visit. rewrite Hmeta. simpl. rewrite Hnull. simpl.
    unfold local_type. simpl. by rewrite Hcss.
  - specialize (IH ltac:(done) Hkeys (child_key parentKey key)).
    assert (Hkey' : is_metadata key' = false
                    /\ String.eqb "value" key' = false).
    { simpl in Hkeys. apply andb_prop in Hkeys as [Hkey' _].
      unfold group_key in Hkey'.
      apply andb_prop in Hkey' as [[_ Hm]%andb_prop Hv].
      apply negb_true_iff in Hm, Hv. split; [done |].
      by rewrite String.eqb_sym. }
    destruct Hkey' as [Hmeta' Hvalue'].
    change (nested (key :: key' :: path) (JObj [("$value", tokenValue)]))
      with (JObj [(key, nested (key' :: path)
                          (JObj [("$value", tokenValue)]))]).
    change (String.concat "-" (key :: key' :: path))
      with (key +:+ "-" +:+ String.concat "-" (key' :: path)).
    rewrite <- child_key_nested by done.
    cbn [flattenTokens for_entries]. unfold visit at 1. rewrite Hmeta.
    change (nested (key' :: path) (JObj [("$value", tokenValue)]))
      with (JObj [(key', nested path (JObj [("$value", tokenValue)]))])
      in *.
    cbn [typeof]. unfold extractValue, local_type. cbn [get prop assoc truthy].
    rewrite (metadata_key_neq key' "$value"), (metadata_key_neq key' "$type"),
      Hvalue' by done.
    rewrite IH. simpl. by rewrite (right_id_L ∅ (∪)).
Qed.

Lemma child_key_path_key (parentKey : string) (path : list string) :
  path <> [] ->
  child_key parentKey (String.concat "-" path) = path_key parentKey path.
Proof.
  intros Hpath. unfold child_key, path_key.
  destruct (String.eqb parentKey EmptyString); [done |].
  by destruct path.
Qed.

(** X9: a token that stands under the groups [k1], ..., [kn], with nothing
    else in them, is flattened to exactly one entry.  Its key is
    [k1-...-kn], behind the parent key and a dash if there is a parent key,
    and its value is the conversion of the value of the token under the type
    the flattening is given.  The key is not [__proto__], which names no
    entry of a flattening. *)
Theorem nested_token_key (path : list string) (tokenValue : json)
    (css : string) (parentType : json) :
  path <> [] ->
  forallb group_key path = true ->
  valueToCss tokenValue parentType = Ok (Some css) ->
  forall parentKey : string,
    path_key parentKey path <> "__proto__" ->
    flattenTokens (nested path (JObj [("$value", tokenValue)])) parentKey
      parentType
    = Ok {[ path_key parentKey path := css ]}.
Proof.
  intros Hpath Hkeys Hcss parentKey Hkey.
  rewrite (nested_token_flattened path tokenValue css) by done.
  rewrite child_key_path_key by done. unfold set_prop.
  apply String.eqb_neq in Hkey. rewrite Hkey.
  by rewrite insert_empty.
Qed.

End FlatteningPaths.

(** ** Reference resolution *)

Section ReferenceResolutionFurther.

Context `{JsNumber}.

Lemma match_reference_unclosed (found : string -> string -> string)
    (no_match : string) (t : string) :
  forall ref : string,
    occurs "}" t = false -> match_reference found no_match ref t = no_match.
Proof.
  induction t as [|c t IH]; intros ref Ht; [done |].
  simpl in *. apply orb_false_elim in Ht as [Hc Ht].
  rewrite Hc. by apply IH.
Qed.

Lemma replace_references_unclosed (s : string) :
  occurs "}" s = false -> replace_references s = s.
Proof.
  induction s as [|c s IH]; intros Hs; [done |].
  simpl in *. apply orb_false_elim in Hs as [_ Hs].
  rewrite (IH Hs).
  destruct (Ascii.eqb c "{"); [| done].
  by apply match_reference_unclosed.
Qed.

(** X11: a value that is not a string, and a string in which no opening brace
    or no closing brace occurs, is returned as it is. *)
Theorem resolveReferences_unchanged (cssValue : json) :
  match cssValue with
  | JStr s => occurs "{" s = false \/ occurs "}" s = false
  | _ => True
  end ->
  resolveReferences cssValue = cssValue.
Proof.
  destruct cssValue as [| | |s| |]; try done.
  intros [Hopen | Hclose]; simpl; f_equal.
  - rewrite <- (string_app_nil_r s) at 1.
    by rewrite replace_references_text, string_app_nil_r.
  - by apply replace_references_unclosed.
Qed.

(** X12: braces with nothing between them are not a reference: they are
    copied, and the resolution goes on behind them. *)
Theorem empty_braces_copied (after : string) :
  replace_references ("{}" +:+ after) = "{}" +:+ replace_references after.
Proof. reflexivity. Qed.

Lemma occurs_dot_dots_to_dashes (ref : string) :
  occurs "." (dots_to_dashes ref) = false.
Proof.
  induction ref as [|c ref IH]; [done |].
  simpl. rewrite IH, orb_false_r.
  by destruct (Ascii.eqb c ".") eqn:Hc.
Qed.

(** X13: the reference to a custom property holds no dot, whatever the path it
    is made from. *)
Theorem var_reference_no_dot (ref : string) :
  occurs "." (var_reference ref) = false.
Proof.
  unfold var_reference, PREFIX.
  rewrite !occurs_app, occurs_dot_dots_to_dashes. reflexivity.
Qed.

Lemma replace_references_written (segs : list segment) :
  forallb well_formed segs = true ->
  replace_references (written segs) = rewritten segs.
Proof.
  induction segs as [|seg segs IH]; [done |].
  simpl. intros [Hseg Hsegs]%andb_prop.
  destruct seg as [text|path]; cbn [written rewritten well_formed] in *.
  - apply andb_prop in Hseg as [Hopen%negb_true_iff _].
    by rewrite replace_references_text, IH.
  - apply andb_prop in Hseg as [Hne [_ Hclose%negb_true_iff]%andb_prop].
    apply negb_true_iff, String.eqb_neq in Hne.
    rewrite replace_references_reference, IH, var_reference_dashed by done.
    by rewrite !string_app_assoc.
Qed.

Lemma rewritten_brace_free (segs : list segment) :
  forallb well_formed segs = true -> brace_free (rewritten segs) = true.
Proof.
  induction segs as [|seg segs IH]; [done |].
  simpl. intros [Hseg Hsegs]%andb_prop.
  destruct seg as [text|path]; cbn [rewritten well_formed] in *.
  - by rewrite brace_free_app, Hseg, IH.
  - apply andb_prop in Hseg as [_ Hfree].
    by rewrite !brace_free_app, (brace_free_dashed _ Hfree), IH.
Qed.

(** X14: resolving the references of a string of brace-free text and
    references once more changes nothing. *)
Theorem resolveReferences_idempotent (segs : list segment) :
  forallb well_formed segs = true ->
  resolveReferences (resolveReferences (JStr (written segs)))
  = resolveReferences (JStr (written segs)).
Proof.
  intros Hwf. simpl. rewrite replace_references_written by done.
  f_equal. rewrite <- (string_app_nil_r (rewritten segs)) at 1.
  rewrite replace_references_text, string_app_nil_r; [done |].
  apply rewritten_brace_free in Hwf. unfold brace_free in Hwf.
  by apply andb_prop in Hwf as [Hopen%negb_true_iff _].
Qed.

End ReferenceResolutionFurther.

(** ** Module compiler *)

Section ModuleCompilerFurther.

Variable root : string.
Variable sass : filesystem -> string -> string -> filesystem * option string.

Lemma build_module_accounts (st st' : build_state) (mod_ : module) :
  build_module root sass st mod_ = Ok st' ->
  length (console st') = S (length (console st))
  /\ built st' + skipped st' <= S (built st + skipped st)
  /\ built st <= built st' /\ skipped st <= skipped st'.
Proof.
  unfold build_module.
  destruct (existsSync _ _); simpl.
  - destruct (mkdirSync _ _) as [fs1|e]; simpl; [| discriminate].
    destruct (sass _ _ _) as [fs2 [message|]]; intros [= <-]; simpl;
      rewrite length_app; simpl; lia.
  - intros [= <-]; simpl. rewrite length_app; simpl; lia.
Qed.

(** X16: when the loop over a manifest ends, it has printed one line for each
    entry, and the modules it has counted as built or skipped since it started
    are at most as many as the entries; neither count has gone down. *)
Theorem build_modules_accounts (mods : list module) :
  forall st st' : build_state,
    build_modules root sass mods st = Ok st' ->
    length (console st') = length (console st) + length mods
    /\ built st' + skipped st' <= built st + skipped st + length mods
    /\ built st <= built st' /\ skipped st <= skipped st'.
Proof.
  induction mods as [|mod_ mods IH]; intros st st'; simpl.
  - intros [= <-]. lia.
  - destruct (build_module root sass st mod_) as [st1|e] eqn:Hstep; simpl;
      [| discriminate].
    intros Hrest. apply build_module_accounts in Hstep. apply IH in Hrest.
    lia.
Qed.

Lemma build_modules_skips_all (mods : list module) :
  forall st : build_state,
    (forall mod_, mod_ ∈ mods ->
        existsSync (fs st) (path_join (SRC root) (entry mod_)) = false) ->
    exists st' : build_state,
      build_modules root sass mods st = Ok st'
      /\ fs st' = fs st
      /\ built st' = built st
      /\ skipped st' = skipped st + length mods.
Proof.
  induction mods as [|mod_ mods IH]; intros st Hmissing; simpl.
  - eexists. repeat split. lia.
  - unfold build_module at 1.
    rewrite (Hmissing mod_) by (apply elem_of_cons; by left). simpl.
    edestruct IH as (st' & -> & Hfs & Hbuilt & Hskipped);
      [| exists st'; repeat split; [exact Hfs | exact Hbuilt |]].
    + simpl. intros m Hm. apply Hmissing, elem_of_cons. by right.
    + rewrite Hskipped. simpl. lia.
Qed.

(** X17: in a project in which none of the sources of the manifest exists, and
    in which the two token files have not both been built before, the script
    leaves the file system as it is: every entry is counted as skipped and
    none as built. *)
Theorem build_without_sources (fs0 : filesystem) :
  (forall mod_, mod_ ∈ modules ->
      existsSync fs0 (path_join (SRC root) (entry mod_)) = false) ->
  existsSync fs0 (primPath root) && existsSync fs0 (semPath root) = false ->
  exists st : build_state,
    build root sass fs0 = Ok st
    /\ fs st = fs0 /\ built st = 0 /\ skipped st = length modules.
Proof.
  intros Hmissing Htokens. unfold build.
  edestruct (build_modules_skips_all modules) as (st & -> & Hfs & Hb & Hs);
    [exact Hmissing |].
  simpl in *. unfold combine_tokens. rewrite Hfs, Htokens.
  exists st. by repeat split.
Qed.

Lemma build_modules_app (mods1 mods2 : list module) (st : build_state) :
  build_modules root sass (mods1 ++ mods2) st
  = (st' ← build_modules root sass mods1 st;
     build_modules root sass mods2 st').
Proof.
  revert st. induction mods1 as [|mod_ mods1 IH]; intros st; [done |].
  simpl. destruct (build_module root sass st mod_) as [st'|e]; simpl;
    [apply IH | done].
Qed.

(** X18: a failure of the compiler never ends the loop.  The loop ends with an
    exception only when, for an entry whose source exists, the directory of
    the output cannot be created; the entries before it have been processed.
    *)
Theorem build_modules_throws (mods : list module) (st : build_state)
    (e : exn) :
  build_modules root sass mods st = Throw e ->
  exists (before after : list module) (mod_ : module) (st' : build_state),
    mods = before ++ mod_ :: after
    /\ build_modules root sass before st = Ok st'
    /\ existsSync (fs st') (path_join (SRC root) (entry mod_)) = true
    /\ mkdirSync (fs st') (dirname (path_join (DIST root) (output mod_)))
       = Throw e.
Proof.
  revert st. induction mods as [|mod_ mods IH]; intros st; [discriminate |].
  simpl. destruct (build_module root sass st mod_) as [st1|e1] eqn:Hstep;
    simpl.
  - intros Hrest.
    destruct (IH st1 Hrest) as (before & after & m & st' & -> & Hb & He & Hm).
    exists (mod_ :: before), after, m, st'. simpl. rewrite Hstep. simpl.
    by repeat split.
  - intros [= <-]. exists [], mods, mod_, st. simpl.
    unfold build_module in Hstep.
    destruct (existsSync _ _); simpl in Hstep; [| discriminate].
    destruct (mkdirSync _ _) as [fs1|e']; simpl in Hstep.
    + by destruct (sass _ _ _) as [fs2 [message|]].
    + by injection Hstep as ->.
Qed.

Lemma path_join_inj (dir name1 name2 : string) :
  path_join dir name1 = path_join dir name2 -> name1 = name2.
Proof.
  unfold path_join. intros Heq.
  apply (inj (String.app dir)) in Heq. by apply (inj (String.app "/")) in Heq.
Qed.

(** X19: the combined token file is written beside the two token files, which
    are left as they are, and writing it once more gives the same file system.
    *)
Theorem combine_tokens_again (st st' : build_state) :
  combine_tokens root st = Ok st' ->
  files (fs st') !! primPath root = files (fs st) !! primPath root
  /\ files (fs st') !! semPath root = files (fs st) !! semPath root
  /\ exists st'' : build_state,
       combine_tokens root st' = Ok st'' /\ fs st'' = fs st'.
Proof.
  unfold combine_tokens at 1.
  destruct (existsSync (fs st) (primPath root)
            && existsSync (fs st) (semPath root)) eqn:Hboth.
  - unfold readFileSync, writeFileSync.
    destruct (files (fs st) !! primPath root) as [prim|] eqn:Hprim;
      [| discriminate]. simpl.
    destruct (files (fs st) !! semPath root) as [sem|] eqn:Hsem;
      [| discriminate]. simpl.
    destruct (bool_decide (allTokensPath root ∈ dirs (fs st))) eqn:Hdir;
      [discriminate |].
    destruct (bool_decide (dirname (allTokensPath root) ∈ dirs (fs st)))
      eqn:Hparent; [| discriminate].
    simpl. intros [= <-]. simpl.
    assert (Hp : allTokensPath root <> primPath root)
      by (intros Heq; by apply path_join_inj in Heq).
    assert (Hs : allTokensPath root <> semPath root)
      by (intros Heq; by apply path_join_inj in Heq).
    rewrite !lookup_insert_ne by done. repeat split; [done.. |].
    unfold combine_tokens, existsSync, readFileSync, writeFileSync. simpl.
    rewrite !lookup_insert_ne, Hprim, Hsem by done.
    rewrite !(bool_decide_eq_true_2 (is_Some (Some _))) by eauto. simpl.
    rewrite Hdir, Hparent. simpl. eexists. split; [done |]. simpl.
    by rewrite insert_insert_eq.
  - intros [= <-]. repeat split. exists st.
    unfold combine_tokens. by rewrite Hboth.
Qed.

End ModuleCompilerFurther.

(** ** The first token normaliser *)

Section LegacyFlattening.

Context `{JsNumber}.

Lemma legacy_for_entries_ok
    (body : Legacy.object -> string -> json -> res Legacy.object)
    (es : list (string * json)) (result : Legacy.object) :
  Forall (fun kv => forall r, exists r', body r (fst kv) (snd kv) = Ok r')
    es ->
  exists result', Legacy.for_entries body es result = Ok result'.
Proof.
  intros Hes. revert result.
  induction Hes as [|[k v] es Hkv _ IH]; intros result; [by eexists |].
  simpl in *. destruct (Hkv result) as [r' ->]. simpl. apply IH.
Qed.

Lemma legacy_for_elements_ok
    (body : Legacy.object -> string -> json -> res Legacy.object)
    (i : nat) (es : list json) (result : Legacy.object) :
  Forall (fun v => forall r k, exists r', body r k v = Ok r') es ->
  exists result', Legacy.for_elements body i es result = Ok result'.
Proof.
  intros Hes. revert i result.
  induction Hes as [|v es Hv _ IH]; intros i result; [by eexists |].
  simpl. destruct (Hv result (pretty i)) as [r' ->]. simpl. apply IH.
Qed.

(** X20: the first flattening throws on [null] only: nothing in a token tree,
    not even a [null] in it, makes it throw. *)
Theorem legacy_flattenTokens_total (obj : json) :
  obj <> JNull ->
  forall parentKey : string,
    exists result : Legacy.object,
      Legacy.flattenTokens obj parentKey = Ok result.
Proof.
  assert (Hvisit : forall value : json,
    (value <> JNull ->
     forall pk, exists r, Legacy.flattenTokens value pk = Ok r) ->
    forall pk r k,
      exists r', Legacy.visit Legacy.flattenTokens pk r k value = Ok r').
  { intros value IH pk r k. unfold Legacy.visit.
    destruct (truthy value && String.eqb (typeof value) "object"
              && Legacy.has_value value); [by eexists |].
    destruct (truthy value && String.eqb (typeof value) "object") eqn:Hgroup;
      [| by eexists].
    destruct (IH ltac:(by intros ->) (child_key pk k)) as [sub ->].
    by eexists. }
  induction obj as [| | | |l IH|l IH] using json_ind;
    intros Hobj parentKey; try done; try (by eexists); simpl.
  - apply legacy_for_elements_ok. eapply Forall_impl; [exact IH |].
    intros value IHv r k. by apply Hvisit.
  - apply legacy_for_entries_ok. eapply Forall_impl; [exact IH |].
    intros [k value] IHv r. by apply Hvisit.
Qed.

(** *** Agreement of the two flattenings *)

Lemma pretty_N_go_not_metadata (x : N) :
  forall s : string,
    is_metadata s = false -> is_metadata (pretty_N_go x s) = false.
Proof.
  induction (N.lt_wf_0 x) as [x _ IH]; intros s Hs.
  assert (x = 0 \/ 0 < x)%N as [-> | Hpos] by lia.
  - by rewrite pretty_N_go_0.
  - rewrite pretty_N_go_step by done. apply IH.
    + by apply N.div_lt.
    + unfold pretty_N_char. simpl. by repeat case_match.
Qed.

(** The index of an array element does not begin with [$]. *)
Lemma index_not_metadata (i : nat) : is_metadata (pretty i) = false.
Proof.
  unfold pretty, pretty_nat, pretty, pretty_N.
  case_decide; [reflexivity | by apply pretty_N_go_not_metadata].
Qed.

Lemma same_object_empty : same_object Legacy.empty_object ∅.
Proof. by repeat split. Qed.

Lemma same_object_assign (legacy sub : Legacy.object)
    (result added : gmap string string) :
  same_object legacy result -> same_object sub added ->
  same_object (Legacy.assign legacy sub) (added ∪ result).
Proof.
  intros (Hplain & Hproto & Hown) (Hplain' & Hproto' & Hown').
  unfold Legacy.assign. rewrite Hproto', delete_id by done.
  unfold same_object. simpl. split; [done |]. split.
  - apply lookup_union_None. by split.
  - by rewrite !map_fmap_union, Hown, Hown'.
Qed.

Lemma same_object_set (legacy : Legacy.object) (result : gmap string string)
    (key : string) (x : json) (css : string) :
  is_bare x = true ->
  to_string x = Ok css ->
  same_object legacy result ->
  same_object (Legacy.set_prop key x legacy) (set_prop key css result).
Proof.
  intros Hbare Hcss (Hplain & Hproto & Hown).
  unfold Legacy.set_prop, set_prop. rewrite Hplain, andb_true_r.
  destruct (String.eqb_spec key "__proto__") as [-> | Hkey].
  - by destruct x.
  - unfold same_object. simpl. split; [done |]. split.
    + by rewrite lookup_insert_ne.
    + by rewrite !fmap_insert, Hown, Hcss.
Qed.

Lemma assoc_metadata_free (name : string) (l : list (string * json)) :
  is_metadata name = true ->
  forallb (fun kv => match kv with
                     | (k, x) => negb (is_metadata k) && Legacy.legacy_node x
                     end) l = true ->
  assoc name l = None.
Proof.
  intros Hname. induction l as [|[k x] l IH]; [done |].
  simpl. intros [[Hk _]%andb_prop Hl]%andb_prop.
  apply negb_true_iff in Hk.
  destruct (String.eqb_spec name k) as [-> | _]; [congruence | by apply IH].
Qed.

Lemma to_string_bare (x : json) :
  is_bare x = true -> exists css, to_string x = Ok css.
Proof. destruct x; try discriminate; by eexists. Qed.

Lemma valueToCss_bare (x type : json) (css : string) :
  is_bare x = true -> to_string x = Ok css ->
  valueToCss x type = Ok (Some css).
Proof. destruct x; try discriminate; by intros _ [= <-]. Qed.

Lemma visit_group
    (flatten : json -> string -> json -> res (gmap string string))
    (parentKey : string) (parentType : json) (result : gmap string string)
    (key : string) (value : json) :
  is_metadata key = false ->
  truthy value && String.eqb (typeof value) "object" = true ->
  extractValue value = Ok JNull ->
  visit flatten parentKey parentType result key value
  = (sub ← flatten value (child_key parentKey key)
             (local_type value parentType);
     Ok (sub ∪ result)).
Proof.
  intros Hkey Hgroup Hextract. unfold visit. rewrite Hkey, Hgroup.
  apply andb_prop in Hgroup as [_ ->]. by rewrite Hextract.
Qed.

Lemma visit_token
    (flatten : json -> string -> json -> res (gmap string string))
    (parentKey : string) (parentType : json) (result : gmap string string)
    (key : string) (value tokenValue : json) (css : string) :
  is_metadata key = false ->
  String.eqb (typeof value) "object" = true ->
  extractValue value = Ok tokenValue ->
  valueToCss tokenValue (local_type value parentType) = Ok (Some css) ->
  visit flatten parentKey parentType result key value
  = Ok (set_prop (child_key parentKey key) css result).
Proof.
  intros Hkey Hobject Hextract Hcss. unfold visit.
  rewrite Hkey, Hobject, Hextract. simpl.
  assert (Hnull : is_null tokenValue = false)
    by (destruct tokenValue; try done; discriminate Hcss).
  rewrite Hnull. simpl. by rewrite Hcss.
Qed.

Lemma visit_bare
    (flatten : json -> string -> json -> res (gmap string string))
    (parentKey : string) (parentType : json) (result : gmap string string)
    (key : string) (value : json) :
  is_bare value = true ->
  visit flatten parentKey parentType result key value = Ok result.
Proof.
  intros Hbare. unfold visit. destruct (is_metadata key); [done |].
  destruct value; try discriminate Hbare; simpl; by rewrite ?andb_false_r.
Qed.

Lemma legacy_visit_group (flatten : json -> string -> res Legacy.object)
    (parentKey : string) (result : Legacy.object) (key : string)
    (value : json) :
  truthy value && String.eqb (typeof value) "object" = true ->
  Legacy.has_value value = false ->
  Legacy.visit flatten parentKey result key value
  = (sub ← flatten value (child_key parentKey key);
     Ok (Legacy.assign result sub)).
Proof.
  intros Hgroup Hvalue. unfold Legacy.visit. by rewrite Hgroup, Hvalue.
Qed.

Lemma legacy_visit_token (flatten : json -> string -> res Legacy.object)
    (parentKey : string) (result : Legacy.object) (key : string)
    (l : list (string * json)) (x : json) :
  assoc "value" l = Some x ->
  Legacy.visit flatten parentKey result key (JObj l)
  = Ok (Legacy.set_prop (child_key parentKey key) x result).
Proof.
  intros Hvalue. unfold Legacy.visit, Legacy.has_value. simpl.
  by rewrite Hvalue.
Qed.

Lemma legacy_visit_bare (flatten : json -> string -> res Legacy.object)
    (parentKey : string) (result : Legacy.object) (key : string)
    (value : json) :
  is_bare value = true ->
  Legacy.visit flatten parentKey result key value = Ok result.
Proof.
  intros Hbare. unfold Legacy.visit.
  destruct value; try discriminate Hbare; simpl; by rewrite ?andb_false_r.
Qed.

Lemma visit_same_object (value : json) (parentKey : string)
    (parentType : json) (key : string) (legacy : Legacy.object)
    (result : gmap string string) :
  (Legacy.legacy_file value = true ->
   forall pk pt, exists sub added,
     Legacy.flattenTokens value pk = Ok sub
     /\ flattenTokens value pk pt = Ok added
     /\ same_object sub added) ->
  is_metadata key = false ->
  Legacy.legacy_node value = true ->
  same_object legacy result ->
  exists legacy' result',
    Legacy.visit Legacy.flattenTokens parentKey legacy key value = Ok legacy'
    /\ visit flattenTokens parentKey parentType result key value = Ok result'
    /\ same_object legacy' result'.
Proof.
  intros IH Hkey Hnode Hsame.
  destruct value as [|b|n|s|l|l]; try discriminate Hnode.
  - rewrite legacy_visit_bare, visit_bare by done. eauto.
  - rewrite legacy_visit_bare, visit_bare by done. eauto.
  - rewrite legacy_visit_bare, visit_bare by done. eauto.
  - destruct (IH Hnode (child_key parentKey key)
                (local_type (JArr l) parentType))
      as (sub & added & Hsub & Hadded & Hsame').
    rewrite legacy_visit_group, visit_group by done.
    rewrite Hsub, Hadded. simpl.
    eexists _, _. split; [done |]. split; [done |].
        by apply same_object_assign.
  - cbn [Legacy.legacy_node] in Hnode.
    destruct (assoc "value" l) as [x|] eqn:Hvalue.
    + apply andb_prop in Hnode as [Hbare Hdtcg].
      apply negb_true_iff in Hdtcg.
      destruct (to_string_bare x Hbare) as [css Hcss].
      rewrite (legacy_visit_token _ _ _ _ _ x) by done.
      rewrite (visit_token _ _ _ _ _ _ x css); try done.
      * eexists _, _. split; [done |]. split; [done |].
        by apply same_object_set.
      * unfold extractValue. simpl.
        destruct (assoc "$value" l); [discriminate Hdtcg |]. simpl.
        by rewrite Hvalue.
      * by apply valueToCss_bare.
    + destruct (IH Hnode (child_key parentKey key)
                  (local_type (JObj l) parentType))
        as (sub & added & Hsub & Hadded & Hsame').
      rewrite legacy_visit_group, visit_group; try done.
      * rewrite Hsub, Hadded. simpl.
        eexists _, _. split; [done |]. split; [done |].
        by apply same_object_assign.
      * unfold extractValue. simpl.
        rewrite (assoc_metadata_free "$value") by done. simpl.
        by rewrite Hvalue.
      * unfold Legacy.has_value. simpl. by rewrite Hvalue.
Qed.

Lemma flattenTokens_same_object (obj : json) :
  Legacy.legacy_file obj = true ->
  forall (parentKey : string) (parentType : json),
    exists (legacy : Legacy.object) (result : gmap string string),
      Legacy.flattenTokens obj parentKey = Ok legacy
      /\ flattenTokens obj parentKey parentType = Ok result
      /\ same_object legacy result.
Proof.
  induction obj as [| | | |l IH|l IH] using json_ind;
    intros Hobj parentKey parentType; try discriminate Hobj;
    try (by eauto using same_object_empty); simpl in *.
  - assert (Hloop : forall i legacy result,
      same_object legacy result ->
      exists legacy' result',
        Legacy.for_elements (Legacy.visit Legacy.flattenTokens parentKey) i l
          legacy = Ok legacy'
        /\ for_elements (visit flattenTokens parentKey parentType) i l result
           = Ok result'
        /\ same_object legacy' result').
    { induction l as [|value l IHl]; intros i legacy result Hsame;
        [by eauto |].
      simpl in Hobj. apply andb_prop in Hobj as [Hvalue Hl].
      apply Forall_cons in IH as [IHvalue IH].
      destruct (visit_same_object value parentKey parentType (pretty i)
                  legacy result IHvalue (index_not_metadata i) Hvalue Hsame)
        as (legacy1 & result1 & Hlegacy & Hresult & Hsame1).
      simpl. rewrite Hlegacy, Hresult. simpl. by apply IHl. }
    apply Hloop, same_object_empty.
  - assert (Hloop : forall legacy result,
      same_object legacy result ->
      exists legacy' result',
        Legacy.for_entries (Legacy.visit Legacy.flattenTokens parentKey) l
          legacy = Ok legacy'
        /\ for_entries (visit flattenTokens parentKey parentType) l result
           = Ok result'
        /\ same_object legacy' result').
    { induction l as [|[key value] l IHl]; intros legacy result Hsame;
        [by eauto |].
      simpl in Hobj. apply andb_prop in Hobj as [[Hkey Hvalue]%andb_prop Hl].
      apply negb_true_iff in Hkey.
      apply Forall_cons in IH as [IHvalue IH]. simpl in IHvalue.
      destruct (visit_same_object value parentKey parentType key
                  legacy result IHvalue Hkey Hvalue Hsame)
        as (legacy1 & result1 & Hlegacy & Hresult & Hsame1).
      simpl. rewrite Hlegacy, Hresult. simpl. by apply IHl. }
    apply Hloop, same_object_empty.
Qed.

(** X21: on a token file in the first convention the two flattenings agree:
    both end without an exception, with the same keys, and the value the
    second gives for a key is the string of the value the first gives for it,
    whatever the type the second is given. *)
Theorem flattenTokens_agree (obj : json) (parentKey : string)
    (parentType : json) :
  Legacy.legacy_file obj = true ->
  exists (legacy : Legacy.object) (result : gmap string string),
    Legacy.flattenTokens obj parentKey = Ok legacy
    /\ flattenTokens obj parentKey parentType = Ok result
    /\ to_string <$> Legacy.own legacy = Ok <$> result.
Proof.
  intros Hobj.
  destruct (flattenTokens_same_object obj Hobj parentKey parentType)
    as (legacy & result & Hlegacy & Hresult & _ & _ & Hown).
  eauto.
Qed.

End LegacyFlattening.

(** ** Watcher *)

Section WatcherProperties.

Variable W : Type.
Variable root : string.
Variable execSync : W -> string -> W * option string.
Variable relative : string -> string -> string.

Lemma prefix_app (s t : string) : String.prefix s (s +:+ t) = true.
Proof.
  induction s as [|c s IH]; [by destruct t |].
  rewrite string_app_cons. simpl. by destruct (ascii_dec c c).
Qed.

Lemma rebuild_reports (st : watch_state W) (changedFile : string) :
  building st = false ->
  building (rebuild W root execSync relative st changedFile) = false
  /\ List.filter is_change_report
       (stdout (rebuild W root execSync relative st changedFile))
     = (List.filter is_change_report (stdout st)
        ++ [newline +:+ "Changed: " +:+ relative root changedFile])%list.
Proof.
  intros Hidle. unfold rebuild. rewrite Hidle.
  assert (Hreport : is_change_report
                      (newline +:+ "Changed: " +:+ relative root changedFile)
                    = true).
  { unfold is_change_report. rewrite <- string_app_assoc. apply prefix_app. }
  destruct (String.prefix (TOKENS root) changedFile).
  - destruct (execSync (world st) "npm run tokens") as [w [message|]].
    + simpl. split; [done |].
      rewrite !List.filter_app. simpl. rewrite Hreport. simpl.
      by rewrite app_nil_r.
    + destruct (execSync w "npm run build:core") as [w' [message|]];
        simpl; (split; [done |]);
        rewrite !List.filter_app; simpl; rewrite Hreport; simpl;
        by rewrite ?app_nil_r.
  - destruct (execSync (world st) "npm run build:core") as [w' [message|]];
      simpl; (split; [done |]);
      rewrite !List.filter_app; simpl; rewrite Hreport; simpl;
      by rewrite ?app_nil_r.
Qed.

(** X22: in a session that starts idle no change event is dropped: whatever
    the commands do and whether or not they fail, every handler finds the
    watcher idle, reports its change and leaves the watcher idle, so that the
    changes reported are those of the events, in their order. *)
Theorem watch_reports_every_event (events : list string) :
  forall st : watch_state W,
    building st = false ->
    building (watch W root execSync relative events st) = false
    /\ List.filter is_change_report
         (stdout (watch W root execSync relative events st))
       = (List.filter is_change_report (stdout st)
          ++ map (fun changedFile =>
                    newline +:+ "Changed: " +:+ relative root changedFile)
               events)%list.
Proof.
  induction events as [|changedFile events IH]; intros st Hidle.
  - simpl. by rewrite app_nil_r.
  - destruct (rebuild_reports st changedFile Hidle) as [Hidle' Hout].
    destruct (IH _ Hidle') as [Hend Hreports].
    unfold watch in *. simpl. split; [done |].
    rewrite Hreports, Hout. by rewrite <- app_assoc.
Qed.

End WatcherProperties.

(** ** Conversion followed by resolution *)

Section ConversionThenResolution.

Context `{JsNumber}.

Lemma members_not_empty (l : list (string * json)) :
  l <> [] -> members l <> EmptyString.
Proof.
  destruct l as [|[k x] l]; [done |]. intros _. unfold members. simpl.
  unfold quote. rewrite !string_app_cons. by destruct (map _ l).
Qed.

(** X15: the semantic generator resolves the references of every flattened
    value.  An object without [value] and [unit] and without [offsetX] is
    converted to its JSON text, and when no closing brace occurs between the
    braces of that text, the resolution takes the whole text for one reference
    and rewrites it. *)
Theorem structural_dump_resolved (l : list (string * json)) (type : json) :
  l <> [] ->
  defined (assoc "value" l) && defined (assoc "unit" l) = false ->
  defined (assoc "offsetX" l) = false ->
  occurs "}" (members l) = false ->
  exists css : string,
    valueToCss (JObj l) type = Ok (Some css)
    /\ css = "{" +:+ members l +:+ "}"
    /\ resolveReferences (JStr css) = JStr (var_reference (members l)).
Proof.
  intros Hne Hdim Hshadow Hclose. eexists. split; [| split; [reflexivity |]].
  - unfold valueToCss. simpl prop. by rewrite Hdim, Hshadow.
  - unfold resolveReferences. f_equal.
    rewrite <- (string_app_nil_r (var_reference (members l))).
    change (replace_references ("{" +:+ members l +:+ "}"))
      with (replace_references ("{" +:+ members l +:+ "}" +:+ EmptyString)).
    rewrite replace_references_reference; [done | | done].
    by apply members_not_empty.
Qed.

End ConversionThenResolution.

(** ** The further properties at sample inputs *)

Lemma boolean_converted :
  valueToCss (JBool true) (JStr "color") <> Ok None.
Proof.
  apply (valueToCss_not_null (JBool true) (JStr "color")). reflexivity.
Defined.

Lemma shadow_array_with_null_throws :
  valueToCss (JArr [JObj [("offsetX", JStr "1px")]; JNull]) (JStr "shadow")
  = Throw TypeError
  /\ valueToCss (JArr [JObj [("toString", int 1)]]) JNull = Throw TypeError
  /\ printable (JArr [JObj [("toString", int 1)]]) = false.
Proof.
  split; [| split].
  - apply (proj1 (proj2 (valueToCss_throws JNull (JStr "shadow") TypeError))
             [JObj [("offsetX", JStr "1px")]; JNull]); [reflexivity |].
    apply elem_of_cons. right. apply elem_of_cons. by left.
  - apply (proj2 (proj2 (valueToCss_throws JNull JNull TypeError))
             [JObj [("toString", int 1)]] [("toString", int 1)]);
      [reflexivity | reflexivity | | reflexivity].
    apply elem_of_cons. by left.
  - apply (proj1 (valueToCss_throws (JArr [JObj [("toString", int 1)]])
                    JNull TypeError)).
    reflexivity.
Defined.

Lemma object_converted_under_any_type :
  valueToCss (JObj [("value", int 8); ("unit", JStr "px")]) (JStr "shadow")
  = valueToCss (JObj [("value", int 8); ("unit", JStr "px")]) JNull.
Proof.
  apply (valueToCss_type_for_arrays_only
           (JObj [("value", int 8); ("unit", JStr "px")])
           (JStr "shadow") JNull).
  intros l. discriminate.
Defined.

Lemma one_shadow_in_an_array :
  valueToCss
    (JArr [JObj [("offsetX", JStr "0px"); ("offsetY", JStr "1px");
                 ("blur", JStr "2px"); ("spread", JStr "0px");
                 ("color", JStr "#000")]])
    (JStr "shadow")
  = valueToCss
      (JObj [("offsetX", JStr "0px"); ("offsetY", JStr "1px");
             ("blur", JStr "2px"); ("spread", JStr "0px");
             ("color", JStr "#000")])
      (JStr "shadow").
Proof. apply shadow_array_of_one; reflexivity. Defined.

Lemma null_under_a_key_throws :
  flattenTokens
    (JObj ([("a", JObj [("$value", JStr "1px")])] ++ ("b", JNull) :: []))
    EmptyString JNull
  = Throw TypeError.
Proof. apply null_entry_throws. reflexivity. Defined.

Lemma legacy_file_flattened :
  exists result : gmap string string,
    flattenTokens sample_legacy_file EmptyString JNull = Ok result.
Proof. apply printable_flattened. reflexivity. Defined.

Lemma flattened_key_of_sample :
  flattened_key "theme" "theme-color-primary".
Proof.
  apply (flattenTokens_keys sample_legacy_file "theme" JNull
           {[ "theme-color-primary" := "#fff"; "theme-space-0" := "4" ]}).
  - vm_compute. reflexivity.
  - exists "#fff". vm_compute. reflexivity.
Defined.

(** The scenario of the spacing token. *)
Lemma space_sm_flattened :
  flattenTokens
    (JObj [("space",
            JObj [("sm",
                   JObj [("$value",
                          JObj [("value", int 8); ("unit", JStr "px")])])])])
    EmptyString JNull
  = Ok {[ "space-sm" := "8px" ]}.
Proof.
  apply (nested_token_key ["space"; "sm"]
           (JObj [("value", int 8); ("unit", JStr "px")]) "8px" JNull
           ltac:(discriminate) eq_refl eq_refl EmptyString).
  intros Hkey. vm_compute in Hkey. discriminate Hkey.
Defined.


Lemma plain_value_unchanged :
  resolveReferences (JStr "1px solid } red") = JStr "1px solid } red".
Proof.
  apply (resolveReferences_unchanged (JStr "1px solid } red")).
  left. reflexivity.
Defined.

Lemma resolved_twice :
  resolveReferences
    (resolveReferences
       (JStr (written [Text "1px solid "; Reference "color.zinc.900"])))
  = resolveReferences
      (JStr (written [Text "1px solid "; Reference "color.zinc.900"])).
Proof. apply resolveReferences_idempotent. reflexivity. Defined.

Lemma unknown_object_resolved :
  exists css : string,
    valueToCss (JObj [("a", JStr "x")]) JNull = Ok (Some css)
    /\ css = "{" +:+ members [("a", JStr "x")] +:+ "}"
    /\ resolveReferences (JStr css)
       = JStr (var_reference (members [("a", JStr "x")])).
Proof. apply structural_dump_resolved; [discriminate | reflexivity..]. Defined.

Lemma sample_batch_accounted :
  length (console sample_state) + length modules = 23
  /\ exists st' : build_state,
       build_modules "/repo" sample_sass modules sample_state = Ok st'
       /\ length (console st') = length (console sample_state) + length modules
       /\ built st' + skipped st'
          <= built sample_state + skipped sample_state + length modules
       /\ built sample_state <= built st'
       /\ skipped sample_state <= skipped st'.
Proof.
  split; [reflexivity |].
  destruct (build_modules "/repo" sample_sass modules sample_state)
    as [st'|e] eqn:Hrun; [| by vm_compute in Hrun].
  exists st'. split; [reflexivity |].
  by apply (build_modules_accounts "/repo" sample_sass modules sample_state).
Defined.

Lemma empty_project_untouched :
  exists st : build_state,
    build "/repo" sample_sass sample_empty_fs = Ok st
    /\ fs st = sample_empty_fs /\ built st = 0 /\ skipped st = length modules.
Proof.
  apply (build_without_sources "/repo" sample_sass sample_empty_fs);
    [| reflexivity].
  intros mod_ Hmod. unfold existsSync. simpl.
  rewrite lookup_empty.
  rewrite bool_decide_eq_false_2 by (by intros [? ?]).
  by rewrite bool_decide_eq_false_2 by apply not_elem_of_empty.
Defined.

Lemma blocked_output_directory :
  exists (before after : list module) (mod_ : module) (st' : build_state),
    [{| entry := "utilities/_index.scss"; output := "utilities.css" |}]
    = before ++ mod_ :: after
    /\ build_modules "/repo" sample_sass before
         {| fs := sample_blocked_fs; built := 0; skipped := 0; console := [] |}
       = Ok st'
    /\ existsSync (fs st') (path_join (SRC "/repo") (entry mod_)) = true
    /\ mkdirSync (fs st') (dirname (path_join (DIST "/repo") (output mod_)))
       = Throw SystemError.
Proof.
  apply (build_modules_throws "/repo" sample_sass
           [{| entry := "utilities/_index.scss"; output := "utilities.css" |}]
           {| fs := sample_blocked_fs; built := 0; skipped := 0;
              console := [] |} SystemError).
  vm_compute. reflexivity.
Defined.

Lemma sample_tokens_combined_again :
  exists st' : build_state,
    combine_tokens "/repo" sample_state = Ok st'
    /\ files (fs st') !! primPath "/repo"
       = files (fs sample_state) !! primPath "/repo"
    /\ files (fs st') !! semPath "/repo"
       = files (fs sample_state) !! semPath "/repo"
    /\ exists st'' : build_state,
         combine_tokens "/repo" st' = Ok st'' /\ fs st'' = fs st'.
Proof.
  destruct (combine_tokens "/repo" sample_state) as [st'|e] eqn:Hrun;
    [| by vm_compute in Hrun].
  exists st'. split; [reflexivity |].
  by apply (combine_tokens_again "/repo" sample_state st').
Defined.

Lemma tree_with_null_flattened_by_first :
  exists result : Legacy.object,
    Legacy.flattenTokens sample_with_null EmptyString = Ok result.
Proof. apply legacy_flattenTokens_total. discriminate. Defined.

Lemma sample_legacy_file_agrees :
  exists (legacy : Legacy.object) (result : gmap string string),
    Legacy.flattenTokens sample_legacy_file EmptyString = Ok legacy
    /\ flattenTokens sample_legacy_file EmptyString JNull = Ok result
    /\ to_string <$> Legacy.own legacy = Ok <$> result.
Proof. apply flattenTokens_agree. reflexivity. Defined.

Lemma two_changes_reported :
  building
    (watch (list string) "/repo" sample_execSync (fun _ file => file)
       ["/repo/tokens/global/colors.tokens.json"; "/repo/src/_a.scss"]
       sample_watch_state) = false
  /\ List.filter is_change_report
       (stdout
          (watch (list string) "/repo" sample_execSync (fun _ file => file)
             ["/repo/tokens/global/colors.tokens.json"; "/repo/src/_a.scss"]
             sample_watch_state))
     = (List.filter is_change_report (stdout sample_watch_state)
        ++ map (fun changedFile => newline +:+ "Changed: " +:+ changedFile)
             ["/repo/tokens/global/colors.tokens.json";
              "/repo/src/_a.scss"])%list.
Proof.
  apply (watch_reports_every_event (list string) "/repo" sample_execSync
           (fun _ file => file)).
  reflexivity.
Defined.
